(** * BD_Data_Challenge: the dashboard's request handlers (src/app.py)

    A shallow embedding of the two Dash callbacks of [src/app.py],
    [update_map_and_stats] and [update_stats_on_click], together with the
    static column catalog they read, and the properties of the column
    resolver, the quantile filter, the percent-of-total column, the pie
    breakdown and the trend series.

    Conventions of the embedding.
    - A pandas float64 cell is an [option Q]: [None] is NaN (a missing value),
      [Some x] a finite number.  Arithmetic on cells is exact rational
      arithmetic; equality of numbers is [Qeq] ([==]).  Infinities and the
      rounding error of binary floating point are outside the model; the
      statements on rounded values hold for either neighbour at a rounding
      tie, and those on column sums take the sum to be a 64-bit integer.
    - What crosses the browser is JSON: in the cached records and in the
      click payload a missing number is [null], Python's [None].
    - A Python exception is the [Raise] branch of the error monad [exc].
    - A Python dict that is iterated keeps its insertion order: the catalogs
      are association lists.  The per-region record that is only probed with
      [.get] is a [gmap].
    - The plotting and UI libraries are external collaborators.  A figure is
      the record of the arguments the handler passes to the renderer; whether
      the renderer raises is a parameter of the handler. *)

From Stdlib Require Import QArith Qround Qabs Lqa Lia ZArith.
From stdpp Require Import gmap strings list sorting.

Open Scope Q_scope.

(** ** Exceptions *)

Inductive exn := KeyError | ValueError | IndexError | TypeError.

Inductive exc (A : Type) : Type :=
| Ret (a : A)
| Raise (e : exn).
Arguments Ret {A} a.
Arguments Raise {A} e.

#[global] Instance exc_ret : MRet exc := @Ret.
#[global] Instance exc_bind : MBind exc := fun A B k m =>
  match m with
  | Ret a => k a
  | Raise e => Raise e
  end.

(** ** The column catalog (src/app.py, lines 87-164) *)

Definition shapefile_id_column : string := "ADAUID".

Definition title_column_selector : list (string * string) :=
  [ ("Immigrant number", "immigrant");
    ("Score", "Average Score");
    ("Quintile", "Average Quintile");
    ("Weighted Score", "Population Weighted Score") ]%string.

Definition time_periods : list (string * string) :=
  [ ("All Immigrants", "T1529");
    ("Before 1980", "T1530");
    ("From 1980 to 1990", "T1531");
    ("From 1991 to 2000", "T1532");
    ("From 2001 to 2010", "T1533");
    ("From 2011 to 2021", "T1534");
    ("From 2011 to 2015", "T1535");
    ("From 2016 to 2021", "T1536") ]%string.

Definition origin_regions : list (string * string) :=
  [ ("Total Immigrants", "T1529");
    ("Americas", "T1545");
    ("Europe", "T1557");
    ("Africa", "T1574");
    ("Asia", "T1585");
    ("Oceania & Others", "T1603") ]%string.

Definition origin_countries : list (string * string) :=
  [ ("Brazil", "T1546"); ("Colombia", "T1547"); ("Haiti", "T1550");
    ("Jamaica", "T1551"); ("Mexico", "T1552"); ("USA", "T1555");
    ("France", "T1560"); ("Germany", "T1561"); ("Italy", "T1564");
    ("Poland", "T1566"); ("Russia", "T1569"); ("Ukraine", "T1571");
    ("UK", "T1572");
    ("Egypt", "T1577"); ("Ethiopia", "T1579"); ("Morocco", "T1580");
    ("Nigeria", "T1581"); ("Somalia", "T1582");
    ("Afghanistan", "T1586"); ("China", "T1592"); ("India", "T1599");
    ("Iran", "T1587"); ("Lebanon", "T1589"); ("Pakistan", "T1600");
    ("Philippines", "T1596"); ("Syria", "T1590") ]%string.

Definition accessibility_modes : list (string * string) :=
  [ ("Public Transit", "Transit_Accessibility");
    ("Walking", "Walking_Accessibility") ]%string.

Definition other_indicators : list (string * string) :=
  [ ("CIMD Score", "Average Score");
    ("Essential Services Accessibility Index (ESAI)", "ESAI-Norm");
    ("Immigration Density Index", "IDI_ADA");
    ("Recent Immigration Intensity", "RII_ADA") ]%string.

(** [d[k]] on a dict literal: the value of the first (only) entry with key
    [k]; [None] stands for the [KeyError]. *)
Fixpoint dict_get (d : list (string * string)) (k : string) : option string :=
  match d with
  | [] => None
  | (k', v) :: d' => if String.eqb k k' then Some v else dict_get d' k
  end.

(** ** Selection state: the seven inputs of [update_map_and_stats] *)

Record selection := {
  selected_period : string;
  selected_region : string;
  selected_country : option string;
  selected_accessibility : option string;
  selected_quantile : Q;
  selected_data_type : string;
  selected_other_indicators : option string
}.

(** Python truthiness of a clearable dropdown value: [None] and the empty
    string are false.  [truthy o] is the string when [o] is true. *)
Definition truthy (o : option string) : option string :=
  match o with
  | Some s => if String.eqb s "" then None else Some s
  | None => None
  end.

(** Lines 391-405: the column resolver.  Returns [(data_column, map_title)]. *)
Definition resolve_column (sel : selection) : exc (string * string) :=
  if negb (String.eqb (selected_data_type sel) "Immigrant number") then
    match dict_get title_column_selector (selected_data_type sel) with
    | Some data_column =>
        Ret (data_column, (selected_data_type sel ++ " by ADA")%string)
    | None => Raise KeyError
    end
  else
    let data_column :=
      match truthy (selected_country sel) with
      | Some c => c
      | None =>
        match truthy (selected_other_indicators sel) with
        | Some c => c
        | None =>
          if negb (String.eqb (selected_region sel) "T1529") then
            selected_region sel
          else
            match truthy (selected_accessibility sel) with
            | Some c => c
            | None => selected_period sel
            end
        end
      end in
    Ret (data_column, ("Immigration by " ++ data_column)%string).

(** ** Data frames *)

(** One region record.  The three text columns are fields; every other
    column is numeric and lives in [data]. *)
Record row := {
  ADAUID : string;
  PRNAME : string;
  CSDNAME : string;
  data : gmap string (option Q)
}.

(** A frame: the names of its numeric columns and its rows. *)
Record DataFrame := {
  columns : list string;
  records : list row
}.

(** The cell of [r] in numeric column [col]; a cell that was never filled
    is NaN. *)
Definition at_ (r : row) (col : string) : option Q :=
  match data r !! col with
  | Some c => c
  | None => None
  end.

Definition has_column (df : DataFrame) (col : string) : bool :=
  existsb (String.eqb col) (columns df).

(** The cells of column [col], row by row. *)
Definition series (df : DataFrame) (col : string) : list (option Q) :=
  map (fun r => at_ r col) (records df).

(** [df[col]]: the column as a series, [KeyError] when it is absent.  The
    three text columns are not in [columns]: looking one of them up succeeds
    in the program and is outside this model. *)
Definition getitem (df : DataFrame) (col : string) : exc (list (option Q)) :=
  if has_column df col then Ret (series df col) else Raise KeyError.

(** [s.notna()] on one cell. *)
Definition notna (c : option Q) : bool :=
  match c with
  | Some _ => true
  | None => false
  end.

(** [c >= t] on cells: any comparison with NaN is false. *)
Definition cell_ge (c t : option Q) : bool :=
  match c, t with
  | Some x, Some y => Qle_bool y x
  | _, _ => false
  end.

(** The non-missing numbers of a series, in order. *)
Definition dropna (s : list (option Q)) : list Q := omap id s.

Definition qle_dec (x y : Q) : {x <= y} + {~ x <= y}.
Proof.
  destruct (Qlt_le_dec y x) as [H | H]; [right | left].
  - apply Qlt_not_le, H.
  - exact H.
Defined.

#[global] Instance Qle_decision : RelDecision Qle := qle_dec.

(** [Series.quantile(q)] with the default linear interpolation, as numpy
    computes it: on the sorted non-missing values [xs] of length [n], the
    virtual index is [(n-1)*q], the result interpolates between the
    neighbouring order statistics.  An empty series gives NaN, a [q]
    outside [0, 1] raises [ValueError]. *)
Definition lerp (a b t : Q) : Q := a + (b - a) * t.

Definition virtual_index (n : nat) (q : Q) : Q :=
  inject_Z (Z.of_nat (n - 1)) * q.

Definition quantile_at (xs : list Q) (x0 : Q) (h : Q) : Q :=
  let i := Z.to_nat (Qfloor h) in
  let g := h - inject_Z (Qfloor h) in
  lerp (nth i xs x0) (nth (Nat.min (i + 1) (length xs - 1)) xs x0) g.

Definition quantile_sorted (xs : list Q) (q : Q) : option Q :=
  match xs with
  | [] => None
  | x0 :: _ => Some (quantile_at xs x0 (virtual_index (length xs) q))
  end.

Definition Series_quantile (s : list (option Q)) (q : Q) : exc (option Q) :=
  if Qle_bool 0 q && Qle_bool q 1 then
    Ret (quantile_sorted (merge_sort Qle (dropna s)) q)
  else Raise ValueError.

(** [Series.max()]: the largest non-missing value, NaN on none. *)
Fixpoint list_max (x : Q) (xs : list Q) : Q :=
  match xs with
  | [] => x
  | y :: ys => list_max (if Qle_bool x y then y else x) ys
  end.

Definition Series_max (s : list (option Q)) : option Q :=
  match dropna s with
  | [] => None
  | x :: xs => Some (list_max x xs)
  end.

(** [Series.sum()]: the sum of the non-missing values, 0 on none.  The sum
    is exact here; on an integer column the program holds it in 64 bits, so
    the two agree when the exact sum is a 64-bit integer ([in_int64]). *)
Definition Qsum (xs : list Q) : Q := fold_right Qplus 0 xs.

Definition Series_sum (s : list (option Q)) : Q := Qsum (dropna s).

(** [numpy.rint]: round to the nearest integer, ties to even. *)
Definition rint (x : Q) : Z :=
  let f := Qfloor x in
  match Qcompare (x - inject_Z f) (1 # 2) with
  | Lt => f
  | Gt => (f + 1)%Z
  | Eq => if Z.even f then f else (f + 1)%Z
  end.

(** [Series.round(4)] on one number.  At an exact tie this picks the even
    neighbour, where the program's choice depends on the float64 quotient;
    away from ties ([at_tie4]) the rounding is the only nearest one
    ([nearest4]). *)
Definition round4 (x : Q) : Q := inject_Z (rint (x * 10000)) / 10000.

Definition Qlt_bool (x y : Q) : bool := negb (Qle_bool y x).

(** Python's [sum]: a left fold from 0. *)
Definition py_sum (xs : list Q) : Q := fold_left Qplus xs 0.

(** Row selection by a boolean mask computed row by row. *)
Definition filter_rows (keep : row -> bool) (df : DataFrame) : DataFrame :=
  {| columns := columns df; records := List.filter keep (records df) |}.

Definition set_cell (col : string) (r : row) (v : option Q) : row :=
  {| ADAUID := ADAUID r; PRNAME := PRNAME r; CSDNAME := CSDNAME r;
     data := <[col := v]> (data r) |}.

(** [df[col] = vals]: overwrite or append the column. *)
Definition setitem (df : DataFrame) (col : string) (vals : list (option Q))
  : DataFrame :=
  {| columns := if has_column df col then columns df else columns df ++ [col];
     records := zip_with (set_cell col) (records df) vals |}.

(** [df.to_dict('records')]: one dict per row, keyed by the frame's columns. *)
Definition to_dict_records (df : DataFrame) : list row :=
  map (fun r =>
         {| ADAUID := ADAUID r; PRNAME := PRNAME r; CSDNAME := CSDNAME r;
            data := list_to_map (map (fun c => (c, at_ r c)) (columns df)) |})
      (records df).

(** ** Figures *)

(** The arguments of the [px.choropleth] call of lines 429-438 and the title
    set at line 455; [range_color] is [(0, max_value)]. *)
Record choropleth := {
  frame : DataFrame;
  locations : string;
  color : string;
  range_color : Q * option Q;
  custom_data : list string;
  title : string
}.

Inductive figure :=
| EmptyMap (title : string)
| Map (c : choropleth).

Definition custom_data_columns : list string :=
  [ "PRNAME"; "CSDNAME"; "ADAUID"; "T1529"; "percent_of_total";
    "Average Quintile"; "Average Score" ]%string.

(** Line 422 on one cell, for a positive total. *)
Definition percent_cell (total : Q) (c : option Q) : option Q :=
  match c with
  | Some v => Some (round4 (v / total) * 100)
  | None => None
  end.

(** Lines 420-424: the derived column. *)
Definition percent_of_total (kept : list (option Q)) : list (option Q) :=
  let total_immigrants := Series_sum kept in
  if Qlt_bool 0 total_immigrants then map (percent_cell total_immigrants) kept
  else map (fun _ => Some 0) kept.

(** Lines 414-416: the upper end of the colour scale. *)
Definition color_upper_bound (kept : list (option Q)) : exc (option Q) :=
  max_value ← Series_quantile kept (99 # 100);
  match max_value with
  | Some m => if Qle_bool m 0 then Ret (Series_max kept) else Ret (Some m)
  | None => Ret None
  end.

(** ** The click payload and the detail panel *)

(** A value attached to a map point.  The click payload reaches the
    handler as JSON, where a missing number is [null]: Python's [None]. *)
Inductive value :=
| Str (s : string)
| Num (x : Q)
| Null.

Record point := {
  location : string;
  customdata : option (list value)
}.

(** The numbers and texts the five lines of the summary are formatted from
    (lines 517-524); number formatting itself is not modelled. *)
Record text_info := {
  city : value;
  province : value;
  zone : value;
  total_immigrants_region : Q;
  percent_of_immigrants : Q;
  cimd_quintile : value;
  cimd_score : Q
}.

Inductive pie_panel :=
| PieChart (names : list string) (values : list Q)
| PieNoData (msg : string)
| PieNotFound (msg : string).

Inductive trend_panel :=
| BarChart (x : list string) (y : list Q)
| TrendNoData (msg : string)
| TrendNotFound (msg : string).

Inductive panel :=
| Guidance (msg : string)
| Details (info : text_info) (pie : pie_panel) (trend : trend_panel).

(** A float format spec ([:,.0f], [:.2f]) applied to a value: a string
    raises [ValueError], [None] raises [TypeError] (as does [None * 100]). *)
Definition as_float (v : value) : exc Q :=
  match v with
  | Num x => Ret x
  | Str _ => Raise ValueError
  | Null => Raise TypeError
  end.

(** [l[i]] on a Python list. *)
Definition list_item {A} (l : list A) (i : nat) : exc A :=
  match l !! i with
  | Some a => Ret a
  | None => Raise IndexError
  end.

(** [d.get(k, 0)] on a cached record. *)
Definition get0 (d : row) (k : string) : option Q :=
  match data d !! k with
  | Some c => c
  | None => Some 0
  end.

(** [pd.notna(value) and value > 0]. *)
Definition positive (c : option Q) : bool :=
  match c with
  | Some v => Qlt_bool 0 v
  | None => false
  end.

(** Lines 536-539. *)
Definition origin_pie_data (d : row) : list (string * option Q) :=
  map (fun '(label, col_name) => (label, get0 d col_name)) origin_countries.

(** Line 542. *)
Definition total_origin_sum (pie_data : list (string * option Q)) : Q :=
  py_sum (dropna (List.filter positive (map snd pie_data))).

(** One iteration of the loop of lines 549-556 on the state
    [(pie_labels, pie_values, others_sum)]. *)
Definition pie_step (total : Q) (st : list string * list Q * Q)
    (item : string * option Q) : list string * list Q * Q :=
  let '(pie_labels, pie_values, others_sum) := st in
  match snd item with
  | Some v =>
      if Qlt_bool 0 v then
        let percentage := (v / total) * 100 in
        if Qlt_bool 2 percentage then
          (pie_labels ++ [fst item], pie_values ++ [v], others_sum)
        else (pie_labels, pie_values, others_sum + v)
      else st
  | None => st
  end.

(** Lines 544-560: the slices handed to the pie chart. *)
Definition pie_slices (pie_data : list (string * option Q))
  : list string * list Q :=
  let total := total_origin_sum pie_data in
  if Qlt_bool 0 total then
    let '(pie_labels, pie_values, others_sum) :=
      fold_left (pie_step total) pie_data ([], [], 0) in
    if Qlt_bool 0 others_sum then
      (pie_labels ++ ["Others (<2%)"%string], pie_values ++ [others_sum])
    else (pie_labels, pie_values)
  else ([], []).

(** Lines 535-580, for a record found in the cache. *)
Definition pie_chart (d : row) : pie_panel :=
  let '(pie_labels, pie_values) := pie_slices (origin_pie_data d) in
  if Qlt_bool 0 (py_sum pie_values) then PieChart pie_labels pie_values
  else PieNoData
         "No detailed country of origin data available for this region.".

(** Lines 589-595. *)
Definition trend_periods_ordered : list (string * string) :=
  [ ("Before 1980", "T1530");
    ("1980-1990", "T1531");
    ("1991-2000", "T1532");
    ("2001-2010", "T1533");
    ("2011-2021", "T1534") ]%string.

(** Lines 597-607: labels and values, built side by side. *)
Definition trend_series (d : row) : list string * list Q :=
  fold_left
    (fun '(trend_labels, trend_values) '(label, col_name) =>
       match get0 d col_name with
       | Some v => (trend_labels ++ [label], trend_values ++ [v])
       | None => (trend_labels ++ [label], trend_values ++ [0])
       end)
    trend_periods_ordered ([], []).

(** Lines 586-628, for a record found in the cache. *)
Definition trend_chart (d : row) : trend_panel :=
  let '(trend_labels, trend_values) := trend_series d in
  if existsb (Qlt_bool 0) trend_values then BarChart trend_labels trend_values
  else TrendNoData "No time trend data available for this region.".

(** Lines 499-632. [click_data] is the list under ['points'], [None] when
    there was no click yet. *)
Definition update_stats_on_click (click_data : option (list point))
    (cached_data_list : option (list row)) : exc panel :=
  match click_data, cached_data_list with
  | None, _ | _, None | _, Some [] =>
      Ret (Guidance "Click on a region to see details.")
  | Some points, Some cache =>
      pt ← list_item points 0;
      match customdata pt with
      | None =>
          Ret (Guidance "Click on a region to see details (customdata issue).")
      | Some cd =>
          if (length cd <? 7)%nat then
            Ret (Guidance
                   "Click on a region to see details (customdata issue).")
          else
            province ← list_item cd 0;
            city ← list_item cd 1;
            zone ← list_item cd 2;
            cd3 ← list_item cd 3;
            total ← as_float cd3;
            cd4 ← list_item cd 4;
            pct ← as_float cd4;
            quintile ← list_item cd 5;
            cd6 ← list_item cd 6;
            score ← as_float cd6;
            let info :=
              {| city := city; province := province; zone := zone;
                 total_immigrants_region := total;
                 percent_of_immigrants := pct * 100;
                 cimd_quintile := quintile;
                 cimd_score := score |} in
            let region_id := location pt in
            let hovered_region_data :=
              List.find (fun d => String.eqb (ADAUID d) region_id) cache in
            match hovered_region_data with
            | Some d => Ret (Details info (pie_chart d) (trend_chart d))
            | None =>
                Ret (Details info
                       (PieNotFound
                          "Region data not found in cache for pie chart.")
                       (TrendNotFound
                          "Region data not found in cache for trend chart."))
            end
      end
  end.

(** ** The map handler *)

(** Lines 407-409: the filter stage, giving [df_plot]. *)
Definition filter_stage (df_data : DataFrame) (data_column : string) (q : Q)
  : exc DataFrame :=
  _ ← getitem df_data data_column;
  let full_data :=
    filter_rows (fun r => notna (at_ r data_column)) df_data in
  col ← getitem full_data data_column;
  threshold ← Series_quantile col q;
  Ret (filter_rows (fun r => cell_ge (at_ r data_column) threshold) full_data).

Section MapHandler.

(** The renderer: [Some msg] when the plotting calls of lines 429-486
    raise an exception with message [msg]. *)
Variable px_raises : choropleth -> option string.

(** Lines 387-491.  The result is the pair (figure, cached row set). *)
Definition update_map_and_stats (df_data : DataFrame) (sel : selection)
  : exc (figure * option (list row)) :=
  '(data_column, map_title) ← resolve_column sel;
  df_plot ← filter_stage df_data data_column (selected_quantile sel);
  if (length (records df_plot) =? 0)%nat then
    Ret (EmptyMap "No Data Available", None)
  else
    kept ← getitem df_plot data_column;
    max_value ← color_upper_bound kept;
    let df_plot :=
      setitem df_plot "percent_of_total" (percent_of_total kept) in
    let fig :=
      {| frame := df_plot;
         locations := shapefile_id_column;
         color := data_column;
         range_color := (0, max_value);
         custom_data := custom_data_columns;
         title := map_title |} in
    match px_raises fig with
    | Some e => Ret (EmptyMap ("Error: " ++ e)%string, None)
    | None => Ret (Map fig, Some (to_dict_records df_plot))
    end.

End MapHandler.

(** A cell as the JSON value the browser receives: NaN becomes [null]. *)
Definition json (c : option Q) : value :=
  match c with
  | Some x => Num x
  | None => Null
  end.

(** What the renderer attaches to the map point of row [r]: its location
    and the values of the [custom_data] columns, in order. *)
Definition column_value (r : row) (c : string) : value :=
  if String.eqb c "PRNAME" then Str (PRNAME r)
  else if String.eqb c "CSDNAME" then Str (CSDNAME r)
  else if String.eqb c "ADAUID" then Str (ADAUID r)
  else json (at_ r c).

Definition point_of_row (fig : choropleth) (r : row) : point :=
  {| location := ADAUID r;
     customdata := Some (map (column_value r) (custom_data fig)) |}.

(** * Vocabulary of the specification *)

(** [precedence sel c]: [c] is the column the six-step rule picks. *)
Definition precedence (sel : selection) (c : string) : Prop :=
  let immigrant := selected_data_type sel = "Immigrant number"%string in
  let country := truthy (selected_country sel) in
  let other := truthy (selected_other_indicators sel) in
  let region := selected_region sel in
  let access := truthy (selected_accessibility sel) in
  (~ immigrant ->
     dict_get title_column_selector (selected_data_type sel) = Some c) /\
  (immigrant -> forall x, country = Some x -> c = x) /\
  (immigrant -> country = None -> forall x, other = Some x -> c = x) /\
  (immigrant -> country = None -> other = None ->
     region <> "T1529"%string -> c = region) /\
  (immigrant -> country = None -> other = None ->
     region = "T1529"%string -> forall x, access = Some x -> c = x) /\
  (immigrant -> country = None -> other = None ->
     region = "T1529"%string -> access = None -> c = selected_period sel).

(** The rows with a value in [col], and the threshold line 408 computes
    from them. *)
Definition full_rows (df : DataFrame) (col : string) : list row :=
  List.filter (fun r => notna (at_ r col)) (records df).

Definition values_of (rows : list row) (col : string) : list (option Q) :=
  map (fun r => at_ r col) rows.

Definition sorted_values (rows : list row) (col : string) : list Q :=
  merge_sort Qle (dropna (values_of rows col)).

Definition threshold_of (df : DataFrame) (col : string) (q : Q) : option Q :=
  quantile_sorted (sorted_values (full_rows df col) col) q.

Definition unit_interval (q : Q) : Prop := 0 <= q <= 1.


(** The cell line 422 or 424 writes for a row, from the row's own value. *)
Definition percent_entry (total : Q) (c : option Q) : option Q :=
  if Qlt_bool 0 total then percent_cell total c else Some 0.

(** The number plotted for a period column: the record's value, 0 when the
    value is missing or the column is absent. *)
Definition trend_value (d : row) (col_name : string) : Q :=
  match data d !! col_name with
  | Some (Some v) => v
  | Some None => 0
  | None => 0
  end.

(** The slices of the specification: the countries with a positive value
    whose share of the total exceeds 2%, and the positive values of all
    the others. *)
Definition individual (total : Q) (pie_data : list (string * option Q))
  : list (string * Q) :=
  omap (fun item =>
          match snd item with
          | Some v =>
              if Qlt_bool 0 v && Qlt_bool 2 (v / total * 100)
              then Some (fst item, v) else None
          | None => None
          end) pie_data.

Definition small_values (total : Q) (pie_data : list (string * option Q))
  : list Q :=
  omap (fun item =>
          match snd item with
          | Some v =>
              if Qlt_bool 0 v && negb (Qlt_bool 2 (v / total * 100))
              then Some v else None
          | None => None
          end) pie_data.

Definition others_slice (A : Type) (others_sum : Q) (x : A) : list A :=
  if Qlt_bool 0 others_sum then [x] else [].

Definition sample_row (id : string) (cells : list (string * option Q)) : row :=
  {| ADAUID := id; PRNAME := "Ontario"; CSDNAME := "Toronto";
     data := list_to_map cells |}.

Definition sample_df : DataFrame :=
  {| columns := [ "Average Score"; "Average Quintile"; "T1529"; "T1530";
                  "T1534"; "T1546"; "T1599"; "T1603" ]%string;
     records :=
       [ sample_row "35010001"
           [ ("Average Score", Some (12 # 10)); ("Average Quintile", Some 2);
             ("T1529", Some 10); ("T1530", Some 4); ("T1534", Some 6);
             ("T1546", Some 1); ("T1599", Some 90); ("T1603", None) ]%string;
         sample_row "35010002"
           [ ("Average Score", Some (-(5 # 10))); ("Average Quintile", Some 4);
             ("T1529", Some 20); ("T1530", None); ("T1534", Some 20);
             ("T1546", None); ("T1599", Some 5); ("T1603", None) ]%string;
         sample_row "35010003"
           [ ("Average Score", None); ("Average Quintile", None);
             ("T1529", None); ("T1530", Some 0); ("T1534", Some 0);
             ("T1546", Some 0); ("T1599", Some 0); ("T1603", None) ]%string;
         sample_row "35010004"
           [ ("Average Score", Some 3); ("Average Quintile", Some 5);
             ("T1529", Some 30); ("T1530", Some 7); ("T1534", Some 23);
             ("T1546", Some 3); ("T1599", Some 27); ("T1603", None) ]%string ]
  |}.

Definition sample_selection (country : option string) (region : string)
    (q : Q) : selection :=
  {| selected_period := "T1529"; selected_region := region;
     selected_country := country; selected_accessibility := None;
     selected_quantile := q; selected_data_type := "Immigrant number";
     selected_other_indicators := None |}.

Definition no_failure : choropleth -> option string := fun _ => None.

(** ** Rounding and the integer range *)

(** [r] is a rounding of [s] to 4 decimals: a multiple of 0.0001 at most
    half a unit away.  Away from a tie there is one; at a tie there are
    two, and which one [Series.round(4)] stores is decided by the float64
    quotient. *)
Definition nearest4 (s r : Q) : Prop :=
  (exists k : Z, r = inject_Z k / 10000) /\ Qabs (r - s) <= 1 # 20000.

(** [s] lies exactly half way between two multiples of 0.0001. *)
Definition at_tie4 (s : Q) : Prop :=
  s * 10000 - inject_Z (Qfloor (s * 10000)) == 1 # 2.



(** The text columns of the data frame (line 81). *)
Definition text_columns : list string :=
  [ "ADAUID"; "PRNAME"; "CSDNAME" ]%string.

(** * More of the program: start-up and the dropdowns *)

(** ** Start-up: the join and the column selection (lines 51-82) *)

(** Line 53: [gdf.merge(df_csv, left_on=..., right_on=..., how="inner")] on
    the region id, both ids already strings (lines 29, 45).  A merged row is
    the pair of a shapefile row and a CSV row with the same id. *)
Definition merge {A B : Type} (left_on : A -> string) (right_on : B -> string)
    (left : list A) (right : list B) : list (A * B) :=
  flat_map
    (fun l =>
       map (pair l)
           (List.filter (fun r => String.eqb (left_on l) (right_on r)) right))
    left.

(** Lines 57-59: start-up goes on only with a non-empty join. *)
Inductive startup (A : Type) : Type :=
| Exit
| Continue (a : A).
Arguments Exit {A}.
Arguments Continue {A} a.

Definition merge_or_exit {A B : Type} (left_on : A -> string)
    (right_on : B -> string) (gdf : list A) (df_csv : list B)
  : startup (list (A * B)) :=
  let gdf_merged := merge left_on right_on gdf df_csv in
  if (length gdf_merged =? 0)%nat then Exit else Continue gdf_merged.

(** [s.startswith(p)]. *)
Definition startswith (s p : string) : bool := String.prefix p s.

(** Line 64: the columns converted to numbers. *)
Definition t_cols (merged_columns : list string) : list string :=
  List.filter
    (fun col => startswith col "T" || startswith col "Transit"
                || startswith col "Walking")
    merged_columns.

(** Line 81: the columns of [df_data]; selecting a label the merged frame
    does not have raises [KeyError]. *)
Definition fixed_columns : list string :=
  [ shapefile_id_column; "PRNAME"; "CSDNAME"; "Average Score";
    "Average Quintile"; "Population Weighted Score"; "ESAI-Norm";
    "IDI_ADA"; "RII_ADA" ]%string.

Definition df_data_columns (merged_columns : list string)
  : exc (list string) :=
  let wanted := fixed_columns ++ t_cols merged_columns in
  if forallb (fun c => existsb (String.eqb c) merged_columns) wanted
  then Ret wanted else Raise KeyError.

(** ** The dropdown options (lines 251-331) *)

(** [{'label': k, 'value': v} for k, v in d.items()]: the selectable
    values. *)
Definition option_values (d : list (string * string)) : list string :=
  map snd d.

(** Line 314: the data types offered are the keys. *)
Definition data_type_options : list string := map fst title_column_selector.

(** Lines 287-293. *)
Definition quantile_options : list Q :=
  [ 99 # 100; 95 # 100; 90 # 100; 75 # 100; 0 ].

(** A clearable dropdown holds [None] or one of its options. *)
Definition cleared_or (options : list string) (o : option string) : Prop :=
  match o with
  | None => True
  | Some v => In v options
  end.

(** A selection state the seven dropdowns can be in. *)
Definition from_dropdowns (sel : selection) : Prop :=
  In (selected_period sel) (option_values time_periods) /\
  In (selected_region sel) (option_values origin_regions) /\
  cleared_or (option_values origin_countries) (selected_country sel) /\
  cleared_or (option_values accessibility_modes)
             (selected_accessibility sel) /\
  In (selected_quantile sel) quantile_options /\
  In (selected_data_type sel) data_type_options /\
  cleared_or (option_values other_indicators)
             (selected_other_indicators sel).

(** The columns a selection made in the dropdowns can resolve to. *)
Definition resolvable_columns : list string :=
  [ "Average Score"; "Average Quintile"; "Population Weighted Score" ]%string
  ++ option_values origin_countries ++ option_values other_indicators
  ++ option_values origin_regions ++ option_values accessibility_modes
  ++ option_values time_periods.

(** ** Views of the handlers' intermediate values *)

(** The figure lines 429-455 build from the kept rows. *)
Definition figure_of (df_plot : DataFrame) (col t : string) (ub : option Q)
  : choropleth :=
  {| frame := setitem df_plot "percent_of_total"
                (percent_of_total (series df_plot col));
     locations := shapefile_id_column;
     color := col;
     range_color := (0, ub);
     custom_data := custom_data_columns;
     title := t |}.

(** The dict of one row, as [to_dict('records')] builds it. *)
Definition to_dict (df : DataFrame) (r : row) : row :=
  {| ADAUID := ADAUID r; PRNAME := PRNAME r; CSDNAME := CSDNAME r;
     data := list_to_map (map (fun c => (c, at_ r c)) (columns df)) |}.

(** The first point carries no usable metadata (line 509). *)
Definition customdata_issue (pt : point) : Prop :=
  match customdata pt with
  | None => True
  | Some cd => (length cd < 7)%nat
  end.


(** * Properties *)

Lemma dict_get_In d k : In k (map fst d) -> exists v, dict_get d k = Some v.
Proof.
  induction d as [| [k' v] d IH]; simpl; [tauto |].
  intros [-> | H].
  - rewrite String.eqb_refl. eauto.
  - destruct (String.eqb k k'); eauto.
Qed.

Lemma resolve_column_Ret sel c t :
  resolve_column sel = Ret (c, t) -> precedence sel c.
Proof.
  unfold resolve_column, precedence.
  destruct (String.eqb_spec (selected_data_type sel) "Immigrant number")
    as [Hdt | Hdt]; cbn zeta iota beta delta [negb].
  - destruct (truthy (selected_country sel)) as [x |] eqn:Hc.
    { intros [= <- _]. repeat split; intros; congruence. }
    destruct (truthy (selected_other_indicators sel)) as [x |] eqn:Ho.
    { intros [= <- _]. repeat split; intros; congruence. }
    destruct (String.eqb_spec (selected_region sel) "T1529") as [Hr | Hr];
      cbn zeta iota beta delta [negb].
    + destruct (truthy (selected_accessibility sel)) as [x |] eqn:Ha;
        intros [= <- _]; repeat split; intros; congruence.
    + intros [= <- _]. repeat split; intros; congruence.
  - destruct (dict_get title_column_selector (selected_data_type sel));
      [| discriminate].
    intros [= <- _]. repeat split; intros; congruence.
Qed.

Lemma resolve_column_total sel :
  In (selected_data_type sel) (map fst title_column_selector) ->
  exists c t, resolve_column sel = Ret (c, t).
Proof.
  intros Hin. unfold resolve_column.
  destruct (negb _); [| eauto].
  destruct (dict_get_In _ _ Hin) as [v ->]. eauto.
Qed.

(** A data type outside the catalog makes line 392 raise. *)
Lemma resolve_column_unknown_data_type sel :
  selected_data_type sel <> "Immigrant number"%string ->
  dict_get title_column_selector (selected_data_type sel) = None ->
  resolve_column sel = Raise KeyError.
Proof.
  intros Hdt Hget. unfold resolve_column.
  destruct (String.eqb_spec (selected_data_type sel) "Immigrant number");
    [contradiction |].
  cbn [negb]. rewrite Hget. reflexivity.
Qed.

(** ** Order statistics and linear interpolation *)

#[global] Instance Qle_total : Total Qle.
Proof. intros x y. destruct (Qlt_le_dec x y); [left | right]; lra. Qed.

#[global] Instance Qle_trans' : Transitive Qle.
Proof. intros x y z. apply Qle_trans. Qed.

Lemma sorted_nth_le (xs : list Q) d i j :
  StronglySorted Qle xs -> (i <= j < length xs)%nat ->
  nth i xs d <= nth j xs d.
Proof.
  intros Hs. revert i j.
  induction Hs as [| x xs Hs IH Hx]; simpl; intros i j Hij; [lia |].
  destruct i as [| i], j as [| j]; try lia.
  - lra.
  - rewrite List.Forall_forall in Hx. apply Hx, nth_In. lia.
  - apply IH. lia.
Qed.

Lemma lerp_between a b t : a <= b -> 0 <= t <= 1 ->
  a <= lerp a b t /\ lerp a b t <= b.
Proof. unfold lerp. intros Hab Ht. split; nra. Qed.

Lemma lerp_mono a b s t : a <= b -> s <= t -> lerp a b s <= lerp a b t.
Proof. unfold lerp. intros. nra. Qed.

Lemma frac_bounds h : 0 <= h - inject_Z (Qfloor h) <= 1.
Proof.
  pose proof (Qfloor_le h). pose proof (Qlt_floor h) as H1.
  rewrite inject_Z_plus in H1. change (inject_Z 1) with 1 in H1. lra.
Qed.

Lemma floor_index h n :
  0 <= h <= inject_Z (Z.of_nat n) ->
  (Z.to_nat (Qfloor h) <= n)%nat /\ (0 <= Qfloor h)%Z.
Proof.
  intros [H0 Hn].
  apply Qfloor_resp_le in H0, Hn.
  rewrite Qfloor_Z in Hn. change 0 with (inject_Z 0) in H0.
  rewrite Qfloor_Z in H0. lia.
Qed.

Section Quantile.
Variables (xs : list Q) (d : Q).
Hypothesis Hsorted : StronglySorted Qle xs.
Hypothesis Hne : (0 < length xs)%nat.

Let top : Q := inject_Z (Z.of_nat (length xs - 1)).

Lemma quantile_at_between h :
  0 <= h <= top ->
  nth (Z.to_nat (Qfloor h)) xs d <= quantile_at xs d h /\
  quantile_at xs d h
    <= nth (Nat.min (Z.to_nat (Qfloor h) + 1) (length xs - 1)) xs d.
Proof.
  intros Hh. unfold quantile_at.
  destruct (floor_index _ _ Hh) as [Hi _].
  apply lerp_between; [| apply frac_bounds].
  apply sorted_nth_le; [assumption | lia].
Qed.

Lemma quantile_at_le_last h :
  0 <= h <= top -> quantile_at xs d h <= nth (length xs - 1) xs d.
Proof.
  intros Hh. destruct (quantile_at_between h Hh) as [_ H].
  eapply Qle_trans; [exact H |].
  apply sorted_nth_le; [assumption | lia].
Qed.

Lemma quantile_at_ge_first h :
  0 <= h <= top -> nth 0 xs d <= quantile_at xs d h.
Proof.
  intros Hh. destruct (quantile_at_between h Hh) as [H _].
  eapply Qle_trans; [| exact H].
  destruct (floor_index _ _ Hh) as [Hi _].
  apply sorted_nth_le; [assumption | lia].
Qed.

Lemma quantile_at_zero h : h == 0 -> quantile_at xs d h == nth 0 xs d.
Proof.
  intros Hh. unfold quantile_at.
  rewrite (Qfloor_comp _ _ Hh). change (Qfloor 0) with 0%Z.
  simpl Z.to_nat. unfold lerp. cbv zeta. rewrite Hh.
  change (inject_Z 0) with 0. change (Z.to_nat 0) with 0%nat. lra.
Qed.

Lemma quantile_at_mono h1 h2 :
  0 <= h1 -> h1 <= h2 -> h2 <= top ->
  quantile_at xs d h1 <= quantile_at xs d h2.
Proof.
  intros H0 H12 Htop.
  assert (Hh1 : 0 <= h1 <= top) by lra.
  assert (Hh2 : 0 <= h2 <= top) by lra.
  destruct (floor_index _ _ Hh1) as [Hi1 Hz1].
  destruct (floor_index _ _ Hh2) as [Hi2 Hz2].
  pose proof (Qfloor_resp_le _ _ H12) as Hfl.
  destruct (Z.eq_dec (Qfloor h1) (Qfloor h2)) as [Heq | Hneq].
  - unfold quantile_at. rewrite Heq.
    apply lerp_mono; [| lra].
    apply sorted_nth_le; [assumption | lia].
  - destruct (quantile_at_between h1 Hh1) as [_ Hup].
    destruct (quantile_at_between h2 Hh2) as [Hlo _].
    eapply Qle_trans; [exact Hup |].
    eapply Qle_trans; [| exact Hlo].
    apply sorted_nth_le; [assumption | lia].
Qed.
End Quantile.

(** ** The filter stage *)

Lemma unit_interval_bool q :
  unit_interval q -> Qle_bool 0 q && Qle_bool q 1 = true.
Proof.
  intros [H0 H1]. apply andb_true_iff. split; apply Qle_bool_iff; assumption.
Qed.

Lemma has_column_filter_rows p df col :
  has_column (filter_rows p df) col = has_column df col.
Proof. reflexivity. Qed.

Lemma filter_stage_eq df col q :
  has_column df col = true -> unit_interval q ->
  filter_stage df col q =
    Ret {| columns := columns df;
           records :=
             List.filter (fun r => cell_ge (at_ r col) (threshold_of df col q))
                         (full_rows df col) |}.
Proof.
  intros Hc Hq. unfold filter_stage, getitem.
  rewrite has_column_filter_rows, Hc. cbn [mbind exc_bind].
  unfold Series_quantile. rewrite (unit_interval_bool q Hq).
  reflexivity.
Qed.

Lemma filter_stage_KeyError df col q :
  has_column df col = false -> filter_stage df col q = Raise KeyError.
Proof. intros Hc. unfold filter_stage, getitem. rewrite Hc. reflexivity. Qed.

Lemma sorted_values_sorted rows col :
  StronglySorted Qle (sorted_values rows col).
Proof. apply StronglySorted_merge_sort; apply _. Qed.

Lemma In_dropna (s : list (option Q)) x : In x (dropna s) <-> In (Some x) s.
Proof.
  unfold dropna. rewrite <- !list_elem_of_In, list_elem_of_omap.
  split.
  - intros [y [Hy Heq]]. simpl in Heq. subst y. exact Hy.
  - intros H. exists (Some x). split; [exact H | reflexivity].
Qed.

Lemma In_sorted_values rows col x :
  In x (sorted_values rows col) <-> exists r, In r rows /\ at_ r col = Some x.
Proof.
  unfold sorted_values.
  rewrite <- list_elem_of_In, merge_sort_Permutation, list_elem_of_In.
  unfold values_of. rewrite In_dropna, in_map_iff. split.
  - intros [r [Hr Hin]]. eauto.
  - intros [r [Hin Hr]]. eauto.
Qed.

Lemma In_full_rows df col r :
  In r (full_rows df col) <-> In r (records df) /\ at_ r col <> None.
Proof.
  unfold full_rows. rewrite filter_In. unfold notna.
  destruct (at_ r col); split; intros [H1 H2]; split; congruence.
Qed.

Lemma virtual_index_bounds n q :
  unit_interval q ->
  0 <= virtual_index n q <= inject_Z (Z.of_nat (n - 1)).
Proof.
  intros [H0 H1]. unfold virtual_index.
  assert (0 <= inject_Z (Z.of_nat (n - 1))).
  { change 0 with (inject_Z 0). rewrite <- Zle_Qle. lia. }
  split; nra.
Qed.

Lemma virtual_index_mono n q1 q2 :
  q1 <= q2 -> virtual_index n q1 <= virtual_index n q2.
Proof.
  intros H. unfold virtual_index.
  assert (0 <= inject_Z (Z.of_nat (n - 1))).
  { change 0 with (inject_Z 0). rewrite <- Zle_Qle. lia. }
  nra.
Qed.

Lemma quantile_sorted_None xs q : quantile_sorted xs q = None <-> xs = [].
Proof. destruct xs; simpl; split; congruence. Qed.

Lemma quantile_sorted_mono xs q1 q2 t1 t2 :
  StronglySorted Qle xs -> unit_interval q1 -> unit_interval q2 -> q1 <= q2 ->
  quantile_sorted xs q1 = Some t1 -> quantile_sorted xs q2 = Some t2 ->
  t1 <= t2.
Proof.
  intros Hs Hq1 Hq2 Hle. destruct xs as [| x0 xs]; [discriminate |].
  intros [= <-] [= <-].
  apply quantile_at_mono; [assumption | simpl; lia | | |].
  - apply virtual_index_bounds, Hq1.
  - apply virtual_index_mono, Hle.
  - apply virtual_index_bounds, Hq2.
Qed.

Lemma quantile_sorted_min xs q t x :
  StronglySorted Qle xs -> q == 0 ->
  quantile_sorted xs q = Some t -> In x xs -> t <= x.
Proof.
  intros Hs Hq. destruct xs as [| x0 xs]; [discriminate |].
  intros [= <-] Hin.
  rewrite quantile_at_zero.
  - destruct (In_nth _ _ x0 Hin) as [j [Hj <-]].
    apply sorted_nth_le; [assumption | lia].
  - unfold virtual_index. rewrite Hq. lra.
Qed.

Lemma quantile_sorted_top xs q t :
  StronglySorted Qle xs -> unit_interval q ->
  quantile_sorted xs q = Some t ->
  exists m, In m xs /\ t <= m /\ forall x, In x xs -> x <= m.
Proof.
  intros Hs Hq. destruct xs as [| x0 xs]; [discriminate |].
  intros [= <-]. exists (nth (length (x0 :: xs) - 1) (x0 :: xs) x0).
  split; [| split].
  - apply nth_In. simpl. lia.
  - apply quantile_at_le_last; [assumption | simpl; lia |].
    apply virtual_index_bounds, Hq.
  - intros x Hin. destruct (In_nth _ _ x0 Hin) as [j [Hj <-]].
    apply sorted_nth_le; [assumption | lia].
Qed.

Lemma filter_all {A} (p : A -> bool) l :
  (forall x, In x l -> p x = true) -> List.filter p l = l.
Proof.
  intros H. apply forallb_filter_id, forallb_forall, H.
Qed.

Lemma filter_length_impl {A} (p1 p2 : A -> bool) l :
  (forall x, In x l -> p2 x = true -> p1 x = true) ->
  (length (List.filter p2 l) <= length (List.filter p1 l))%nat.
Proof.
  induction l as [| a l IH]; simpl; intros H; [lia |].
  assert (IH' := IH (fun x Hx => H x (or_intror Hx))).
  specialize (H a (or_introl eq_refl)).
  destruct (p2 a), (p1 a); simpl; try lia.
  all: discriminate (H eq_refl).
Qed.

Lemma cell_ge_true c t :
  cell_ge c t = true <-> exists v y, c = Some v /\ t = Some y /\ y <= v.
Proof.
  destruct c as [v |], t as [y |]; simpl; split;
    try discriminate; try (intros (? & ? & ? & ? & ?); discriminate).
  - intros H. exists v, y. rewrite Qle_bool_iff in H. auto.
  - intros (v' & y' & [= <-] & [= <-] & H). apply Qle_bool_iff, H.
Qed.

Lemma threshold_of_Series df col q :
  unit_interval q ->
  Series_quantile (values_of (full_rows df col) col) q
  = Ret (threshold_of df col q).
Proof.
  intros Hq. unfold Series_quantile. rewrite (unit_interval_bool q Hq).
  reflexivity.
Qed.

Lemma full_rows_sorted_nonempty df col r :
  In r (full_rows df col) -> sorted_values (full_rows df col) col <> [].
Proof.
  intros Hin Hnil.
  destruct (proj1 (In_full_rows df col r) Hin) as [_ Hna].
  destruct (at_ r col) as [v |] eqn:Hv; [| congruence].
  assert (H : In v (sorted_values (full_rows df col) col))
    by (apply In_sorted_values; eauto).
  rewrite Hnil in H. destruct H.
Qed.

Lemma threshold_of_Some df col q r :
  In r (full_rows df col) -> exists t, threshold_of df col q = Some t.
Proof.
  intros Hin. unfold threshold_of.
  destruct (quantile_sorted _ q) as [t |] eqn:Ht; [eauto |].
  apply quantile_sorted_None in Ht.
  destruct (full_rows_sorted_nonempty df col r Hin Ht).
Qed.

(** C2: the filter stage drops exactly the rows with a missing value in the
    resolved column, takes the [q]-quantile of the remaining values as the
    threshold and keeps exactly the rows at or above it; at [q = 0] every
    row with a value is kept. *)
Theorem filter_stage_keeps df col q :
  has_column df col = true -> unit_interval q ->
  exists df_plot,
    filter_stage df col q = Ret df_plot /\
    (forall r, In r (full_rows df col) <->
               In r (records df) /\ at_ r col <> None) /\
    Series_quantile (values_of (full_rows df col) col) q
      = Ret (threshold_of df col q) /\
    records df_plot =
      List.filter (fun r => cell_ge (at_ r col) (threshold_of df col q))
                  (full_rows df col) /\
    (forall r, In r (records df_plot) <->
               In r (records df) /\
               exists v t, at_ r col = Some v /\
                           threshold_of df col q = Some t /\ t <= v) /\
    (q == 0 -> records df_plot = full_rows df col).
Proof.
  intros Hc Hq. eexists. split; [apply filter_stage_eq; assumption |].
  split; [apply In_full_rows |].
  split; [apply threshold_of_Series, Hq |].
  split; [reflexivity |]. cbn [records]. split.
  - intros r. rewrite filter_In, In_full_rows, cell_ge_true. split.
    + intros [[Hin _] H]. auto.
    + intros [Hin (v & t & Hv & Ht & Hle)]. split; [split |]; eauto.
      congruence.
  - intros Hq0. apply filter_all. intros r Hin.
    destruct (threshold_of_Some df col q r Hin) as [t Ht].
    destruct (proj1 (In_full_rows df col r) Hin) as [_ Hna].
    destruct (at_ r col) as [v |] eqn:Hv; [| congruence].
    apply cell_ge_true. exists v, t. repeat split; try assumption.
    apply (quantile_sorted_min _ q t v (sorted_values_sorted _ col) Hq0 Ht).
    apply In_sorted_values. eauto.
Qed.

(** C6: raising the quantile never increases the number of kept rows. *)
Theorem quantile_filter_monotone df col q1 q2 :
  has_column df col = true ->
  unit_interval q1 -> unit_interval q2 -> q1 <= q2 ->
  exists kept1 kept2,
    filter_stage df col q1 = Ret kept1 /\
    filter_stage df col q2 = Ret kept2 /\
    (length (records kept2) <= length (records kept1))%nat.
Proof.
  intros Hc H1 H2 Hle. do 2 eexists.
  split; [apply filter_stage_eq; assumption |].
  split; [apply filter_stage_eq; assumption |]. cbn [records].
  apply filter_length_impl. intros r Hin.
  rewrite !cell_ge_true. intros (v & t2 & Hv & Ht2 & Hle2).
  destruct (threshold_of_Some df col q1 r Hin) as [t1 Ht1].
  exists v, t1. repeat split; try assumption.
  eapply Qle_trans; [| exact Hle2].
  exact (quantile_sorted_mono _ q1 q2 t1 t2 (sorted_values_sorted _ col)
           H1 H2 Hle Ht1 Ht2).
Qed.

(** ** Inversion of the handlers *)

Lemma filter_stage_inv df col q df_plot :
  filter_stage df col q = Ret df_plot ->
  has_column df col = true /\ unit_interval q /\
  columns df_plot = columns df /\
  records df_plot =
    List.filter (fun r => cell_ge (at_ r col) (threshold_of df col q))
                (full_rows df col).
Proof.
  unfold filter_stage, getitem. rewrite has_column_filter_rows.
  destruct (has_column df col); [| discriminate]. cbn [mbind exc_bind].
  unfold Series_quantile.
  destruct (Qle_bool 0 q && Qle_bool q 1) eqn:Hq; [| discriminate].
  intros [= <-]. apply andb_true_iff in Hq. destruct Hq as [H0 H1].
  apply Qle_bool_iff in H0, H1. repeat split; assumption.
Qed.

Lemma kept_rows_have_values df col q df_plot r :
  filter_stage df col q = Ret df_plot -> In r (records df_plot) ->
  exists v, at_ r col = Some v.
Proof.
  intros H Hin. apply filter_stage_inv in H as (_ & _ & _ & Hrec).
  rewrite Hrec in Hin. apply filter_In in Hin as [_ Hge].
  apply cell_ge_true in Hge as (v & _ & Hv & _). eauto.
Qed.

Section HandlerFacts.
Variable px_raises : choropleth -> option string.

Lemma update_map_no_rows df sel col t df_plot :
  resolve_column sel = Ret (col, t) ->
  filter_stage df col (selected_quantile sel) = Ret df_plot ->
  records df_plot = [] ->
  update_map_and_stats px_raises df sel
  = Ret (EmptyMap "No Data Available", None).
Proof.
  intros Hr Hf Hnil. unfold update_map_and_stats.
  rewrite Hr. cbn [mbind exc_bind]. rewrite Hf. cbn [mbind exc_bind].
  rewrite Hnil. reflexivity.
Qed.

Lemma update_map_inv df sel fig cache :
  update_map_and_stats px_raises df sel = Ret (fig, cache) ->
  exists col t df_plot,
    resolve_column sel = Ret (col, t) /\
    filter_stage df col (selected_quantile sel) = Ret df_plot /\
    ((records df_plot = [] /\ fig = EmptyMap "No Data Available" /\
      cache = None) \/
     (records df_plot <> [] /\
      exists ub,
        color_upper_bound (series df_plot col) = Ret ub /\
        let c :=
          {| frame := setitem df_plot "percent_of_total"
                        (percent_of_total (series df_plot col));
             locations := shapefile_id_column;
             color := col;
             range_color := (0, ub);
             custom_data := custom_data_columns;
             title := t |} in
        match px_raises c with
        | Some e => fig = EmptyMap ("Error: " ++ e)%string /\ cache = None
        | None => fig = Map c /\ cache = Some (to_dict_records (frame c))
        end)).
Proof.
  unfold update_map_and_stats.
  destruct (resolve_column sel) as [[col t] |]; [| discriminate].
  cbn [mbind exc_bind].
  destruct (filter_stage df col (selected_quantile sel)) as [df_plot |]
    eqn:Hf; [| discriminate].
  cbn [mbind exc_bind]. intros H.
  exists col, t, df_plot. split; [reflexivity |]. split; [exact Hf |].
  destruct (records df_plot) as [| r0 rs] eqn:Hrec.
  - left. simpl in H. injection H as <- <-. auto.
  - right. split; [discriminate |]. cbn [length Nat.eqb] in H.
    unfold getitem in H.
    destruct (has_column df_plot col); [| discriminate].
    cbn [mbind exc_bind] in H.
    destruct (color_upper_bound (series df_plot col)) as [ub |];
      [| discriminate].
    cbn [mbind exc_bind] in H. exists ub. split; [reflexivity |].
    cbv zeta.
    destruct (px_raises _); injection H as <- <-; auto.
Qed.
End HandlerFacts.

(** C9: as soon as one row has a value in the resolved column, a row
    holding the greatest value passes the threshold, so the kept set is not
    empty and the handler does not answer with the no-data map. *)
Theorem filter_stage_nonempty df col q :
  has_column df col = true -> unit_interval q ->
  (exists r, In r (records df) /\ at_ r col <> None) ->
  (exists df_plot,
     filter_stage df col q = Ret df_plot /\
     records df_plot <> [] /\
     exists r v,
       In r (records df_plot) /\ at_ r col = Some v /\
       forall r' v', In r' (records df) -> at_ r' col = Some v' -> v' <= v) /\
  (forall px sel t cache,
     resolve_column sel = Ret (col, t) -> selected_quantile sel = q ->
     update_map_and_stats px df sel
     <> Ret (EmptyMap "No Data Available", cache)).
Proof.
  intros Hc Hq (r0 & Hin0 & Hna0).
  assert (Hfull : In r0 (full_rows df col)) by (apply In_full_rows; auto).
  destruct (threshold_of_Some df col q r0 Hfull) as [t Ht].
  destruct (quantile_sorted_top _ q t (sorted_values_sorted _ col) Hq Ht)
    as (m & Hm & Htm & Hmax).
  apply In_sorted_values in Hm as (r & Hr & Hv).
  assert (Hkept :
    In r (List.filter (fun r => cell_ge (at_ r col) (threshold_of df col q))
                      (full_rows df col))).
  { apply filter_In. split; [assumption |].
    apply cell_ge_true. exists m, t. auto. }
  assert (Hstage := filter_stage_eq df col q Hc Hq).
  split.
  - eexists. split; [exact Hstage |]. cbn [records]. split.
    + intros Hnil. rewrite Hnil in Hkept. destruct Hkept.
    + exists r, m. split; [assumption |]. split; [assumption |].
      intros r' v' Hin' Hv'. apply Hmax, In_sorted_values.
      exists r'. split; [| assumption]. apply In_full_rows. split; congruence.
  - intros px sel ti cache Hres Hsel Hupd.
    apply update_map_inv in Hupd as (col' & t' & df_plot & Hres' & Hf & Hcase).
    rewrite Hres in Hres'. injection Hres' as <- <-. subst q.
    rewrite Hstage in Hf. injection Hf as <-. cbn [records] in Hcase.
    destruct Hcase as [(Hnil & _) | (_ & ub & _ & Hpx)].
    + rewrite Hnil in Hkept. destruct Hkept.
    + cbv zeta in Hpx. destruct (px _); destruct Hpx as [Hfig _];
        discriminate Hfig.
Qed.

(** C8: when no row is kept the handler returns the placeholder map titled
    No Data Available together with an empty cache, and the click handler
    answers an empty cache with its guidance text. *)
Theorem no_rows_placeholder px df sel col t df_plot :
  resolve_column sel = Ret (col, t) ->
  filter_stage df col (selected_quantile sel) = Ret df_plot ->
  records df_plot = [] ->
  update_map_and_stats px df sel = Ret (EmptyMap "No Data Available", None) /\
  forall click_data,
    update_stats_on_click click_data None
    = Ret (Guidance "Click on a region to see details.").
Proof.
  intros Hr Hf Hnil. split.
  - eapply update_map_no_rows; eassumption.
  - intros [click |]; reflexivity.
Qed.

(** ** The colour scale *)

Lemma list_max_spec xs : forall x,
  In (list_max x xs) (x :: xs) /\
  forall y, In y (x :: xs) -> y <= list_max x xs.
Proof.
  induction xs as [| a xs IH]; intros x; simpl.
  - split; [auto |]. intros y [<- | []]. lra.
  - destruct (IH (if Qle_bool x a then a else x)) as [Hin Hub].
    destruct (Qle_bool x a) eqn:Hxa.
    + apply Qle_bool_iff in Hxa. split.
      * simpl in Hin. tauto.
      * intros y [<- | Hy].
        -- eapply Qle_trans; [exact Hxa |]. apply Hub. simpl. auto.
        -- apply Hub. exact Hy.
    + assert (Hax : a <= x).
      { destruct (Qlt_le_dec x a) as [H | H]; [| exact H].
        apply Qlt_le_weak, Qle_bool_iff in H. congruence. }
      split.
      * simpl in Hin. tauto.
      * intros y [<- | [<- | Hy]].
        -- apply Hub. simpl. auto.
        -- eapply Qle_trans; [exact Hax |]. apply Hub. simpl. auto.
        -- apply Hub. simpl. auto.
Qed.

Lemma Series_max_spec s :
  dropna s <> [] ->
  exists mx, Series_max s = Some mx /\ In mx (dropna s) /\
             forall y, In y (dropna s) -> y <= mx.
Proof.
  unfold Series_max. destruct (dropna s) as [| x xs]; [congruence |].
  intros _. exists (list_max x xs). split; [reflexivity |].
  apply list_max_spec.
Qed.

Lemma Series_quantile_Some s q :
  dropna s <> [] -> unit_interval q ->
  exists t, Series_quantile s q = Ret (Some t).
Proof.
  intros Hne Hq. unfold Series_quantile. rewrite (unit_interval_bool q Hq).
  destruct (quantile_sorted (merge_sort Qle (dropna s)) q) as [t |] eqn:Ht;
    [eauto |].
  apply quantile_sorted_None in Ht.
  apply (f_equal length) in Ht. rewrite merge_sort_Permutation in Ht.
  destruct (dropna s); [congruence | discriminate].
Qed.

Lemma series_dropna_nonempty df col q df_plot :
  filter_stage df col q = Ret df_plot -> records df_plot <> [] ->
  dropna (series df_plot col) <> [].
Proof.
  intros Hf Hne Hnil.
  destruct (records df_plot) as [| r rs] eqn:Hrec; [congruence |].
  destruct (kept_rows_have_values df col q df_plot r Hf) as [v Hv].
  { rewrite Hrec. simpl. auto. }
  assert (H : In v (dropna (series df_plot col))).
  { apply In_dropna. unfold series. rewrite Hrec. simpl. auto. }
  rewrite Hnil in H. destruct H.
Qed.

Lemma In_series df col c :
  In c (series df col) <-> exists r, In r (records df) /\ at_ r col = c.
Proof.
  unfold series. rewrite in_map_iff. split; intros [r [H1 H2]]; eauto.
Qed.

(** C7: on a non-empty kept row set the upper end of the colour scale is the
    0.99-quantile of the kept values, or their maximum when that quantile
    is not positive; this is the value the figure's colour range ends at. *)
Theorem color_scale_upper_bound df col q df_plot :
  filter_stage df col q = Ret df_plot -> records df_plot <> [] ->
  let kept := series df_plot col in
  exists q99 mx,
    Series_quantile kept (99 # 100) = Ret (Some q99) /\
    Series_max kept = Some mx /\
    (exists r, In r (records df_plot) /\ at_ r col = Some mx) /\
    (forall r v, In r (records df_plot) -> at_ r col = Some v -> v <= mx) /\
    color_upper_bound kept = Ret (Some (if Qle_bool q99 0 then mx else q99)) /\
    forall px sel t fig cache,
      resolve_column sel = Ret (col, t) -> selected_quantile sel = q ->
      update_map_and_stats px df sel = Ret (Map fig, cache) ->
      range_color fig = (0, Some (if Qle_bool q99 0 then mx else q99)).
Proof.
  intros Hf Hne kept.
  assert (Hd := series_dropna_nonempty df col q df_plot Hf Hne).
  destruct (Series_quantile_Some kept (99 # 100) Hd) as [q99 Hq99].
  { split; unfold Qle; simpl; lia. }
  destruct (Series_max_spec kept Hd) as (mx & Hmx & Hin & Hub).
  assert (Hcub :
    color_upper_bound kept = Ret (Some (if Qle_bool q99 0 then mx else q99))).
  { unfold color_upper_bound. rewrite Hq99. cbn [mbind exc_bind].
    destruct (Qle_bool q99 0); [rewrite Hmx |]; reflexivity. }
  exists q99, mx. repeat split; try assumption.
  - apply In_dropna, In_series in Hin. exact Hin.
  - intros r v Hr Hv. apply Hub, In_dropna, In_series. eauto.
  - intros px sel t fig cache Hres Hsel Hupd. subst q.
    apply update_map_inv in Hupd
      as (col' & t' & df_plot' & Hres' & Hf' & Hcase).
    rewrite Hres in Hres'. injection Hres' as <- <-.
    rewrite Hf in Hf'. injection Hf' as <-.
    destruct Hcase as [(_ & Hfig & _) | (_ & ub & Hub' & Hpx)];
      [discriminate |].
    fold kept in Hub'. rewrite Hcub in Hub'. injection Hub' as <-.
    cbv zeta in Hpx. destruct (px _); destruct Hpx as [Hfig _];
      [discriminate |].
    injection Hfig as ->. reflexivity.
Qed.

(** ** Rounding and the percent-of-total column *)

Lemma rint_close y :
  - (1 # 2) <= inject_Z (rint y) - y <= 1 # 2.
Proof.
  unfold rint.
  pose proof (Qfloor_le y) as Hlo. pose proof (Qlt_floor y) as Hhi.
  rewrite inject_Z_plus in Hhi. change (inject_Z 1) with 1 in Hhi.
  destruct (Qcompare_spec (y - inject_Z (Qfloor y)) (1 # 2)) as [He | Hl | Hg].
  - destruct (Z.even (Qfloor y)).
    + lra.
    + rewrite inject_Z_plus. change (inject_Z 1) with 1. lra.
  - lra.
  - rewrite inject_Z_plus. change (inject_Z 1) with 1. lra.
Qed.


Lemma Qsum_app xs ys : Qsum (xs ++ ys) == Qsum xs + Qsum ys.
Proof.
  unfold Qsum. induction xs as [| x xs IH]; simpl; [lra |].
  change (fold_right Qplus 0 (xs ++ ys)) with (Qsum (xs ++ ys)) in *.
  rewrite IH. lra.
Qed.






Lemma Qlt_bool_iff x y : Qlt_bool x y = true <-> x < y.
Proof.
  unfold Qlt_bool. rewrite negb_true_iff. split.
  - intros H. destruct (Qlt_le_dec x y) as [Hl | Hl]; [exact Hl |].
    apply Qle_bool_iff in Hl. congruence.
  - intros H. destruct (Qle_bool y x) eqn:E; [| reflexivity].
    apply Qle_bool_iff in E. lra.
Qed.

Lemma Qlt_bool_false x y : Qlt_bool x y = false <-> y <= x.
Proof.
  unfold Qlt_bool. rewrite negb_false_iff. apply Qle_bool_iff.
Qed.


Lemma zip_with_map_r {A B C} (f : A -> B -> C) (g : A -> B) l :
  zip_with f l (map g l) = map (fun a => f a (g a)) l.
Proof. induction l as [| a l IH]; simpl; [reflexivity | by rewrite IH]. Qed.

Lemma at_set_cell col r v : at_ (set_cell col r v) col = v.
Proof. unfold at_, set_cell. simpl. by rewrite lookup_insert_eq. Qed.

Lemma percent_of_total_map kept :
  percent_of_total kept = map (percent_entry (Series_sum kept)) kept.
Proof.
  unfold percent_of_total, percent_entry.
  destruct (Qlt_bool 0 (Series_sum kept)); reflexivity.
Qed.

Lemma setitem_percent_records df_plot col :
  records (setitem df_plot "percent_of_total"
             (percent_of_total (series df_plot col)))
  = map (fun r => set_cell "percent_of_total" r
                    (percent_entry (Series_sum (series df_plot col))
                                   (at_ r col)))
        (records df_plot).
Proof.
  cbn [records setitem]. rewrite percent_of_total_map. unfold series.
  rewrite map_map. apply zip_with_map_r.
Qed.


Lemma update_map_frame px df sel col t df_plot fig cache :
  resolve_column sel = Ret (col, t) ->
  filter_stage df col (selected_quantile sel) = Ret df_plot ->
  update_map_and_stats px df sel = Ret (Map fig, cache) ->
  frame fig = setitem df_plot "percent_of_total"
                (percent_of_total (series df_plot col)) /\
  custom_data fig = custom_data_columns /\
  color fig = col /\ title fig = t /\
  cache = Some (to_dict_records (frame fig)).
Proof.
  intros Hres Hf Hupd.
  apply update_map_inv in Hupd as (col' & t' & df_plot' & Hres' & Hf' & Hcase).
  rewrite Hres in Hres'. injection Hres' as <- <-.
  rewrite Hf in Hf'. injection Hf' as <-.
  destruct Hcase as [(_ & Hfig & _) | (_ & ub & Hub' & Hpx)];
    [discriminate |].
  cbv zeta in Hpx. destruct (px _); destruct Hpx as [Hfig Hc];
    [discriminate |].
  injection Hfig as ->. auto.
Qed.


Lemma rint_unique y k :
  ~ y - inject_Z (Qfloor y) == 1 # 2 ->
  - (1 # 2) <= inject_Z k - y <= 1 # 2 -> k = rint y.
Proof.
  intros Hntie Hk. pose proof (rint_close y) as Hr.
  assert (Hd : - 1 <= inject_Z k - inject_Z (rint y) <= 1) by lra.
  assert (Hz : (-1 <= k - rint y <= 1)%Z).
  { destruct Hd as [H1 H2]. split.
    - rewrite Zle_Qle. unfold Z.sub. rewrite inject_Z_plus, inject_Z_opp.
      change (inject_Z (-1)) with (-1). lra.
    - rewrite Zle_Qle. unfold Z.sub. rewrite inject_Z_plus, inject_Z_opp.
      change (inject_Z 1) with 1. lra. }
  destruct (Z.eq_dec k (rint y)) as [E | E]; [exact E |].
  exfalso. apply Hntie.
  pose proof (Qfloor_le y) as Hlo. pose proof (Qlt_floor y) as Hhi.
  rewrite inject_Z_plus in Hhi. change (inject_Z 1) with 1 in Hhi.
  (* k and rint y are neighbours at distance at most 1/2 of y on both
     sides: y is their midpoint *)
  assert (Hcase : (k = rint y + 1 \/ k = rint y - 1)%Z) by lia.
  destruct Hcase as [-> | ->].
  - rewrite inject_Z_plus in Hk. change (inject_Z 1) with 1 in Hk.
    assert (Hy : y == inject_Z (rint y) + (1 # 2)) by lra.
    assert (Hfl : Qfloor y = rint y).
    { assert (H1 : (rint y <= Qfloor y)%Z).
      { rewrite <- (Qfloor_Z (rint y)). apply Qfloor_resp_le. lra. }
      assert (H2 : (Qfloor y < rint y + 1)%Z).
      { rewrite Zlt_Qlt, inject_Z_plus. change (inject_Z 1) with 1.
        lra. }
      lia. }
    rewrite Hfl. lra.
  - assert (Hk' : inject_Z (rint y - 1) == inject_Z (rint y) - 1).
    { unfold Z.sub. rewrite inject_Z_plus, inject_Z_opp.
      change (inject_Z 1) with 1. lra. }
    rewrite Hk' in Hk.
    assert (Hy : y == inject_Z (rint y - 1) + (1 # 2)) by (rewrite Hk'; lra).
    assert (Hfl : Qfloor y = (rint y - 1)%Z).
    { assert (H1 : (rint y - 1 <= Qfloor y)%Z).
      { rewrite <- (Qfloor_Z (rint y - 1)). apply Qfloor_resp_le. lra. }
      assert (H2 : (Qfloor y < rint y)%Z).
      { rewrite Zlt_Qlt. lra. }
      lia. }
    rewrite Hfl. lra.
Qed.

(** Away from a tie the rounding to 4 decimals is [round4]. *)
Lemma nearest4_round4 s r : ~ at_tie4 s -> nearest4 s r -> r = round4 s.
Proof.
  intros Hntie [[k ->] Hd]. unfold round4. f_equal. f_equal.
  apply rint_unique; [exact Hntie |].
  apply Qabs_Qle_condition in Hd.
  unfold Qdiv in Hd. change (/ 10000) with (1 # 10000) in Hd. lra.
Qed.








(** ** The click on a map point *)

Lemma custom_data_of_row fig r :
  custom_data fig = custom_data_columns ->
  customdata (point_of_row fig r)
  = Some [ Str (PRNAME r); Str (CSDNAME r); Str (ADAUID r);
           json (at_ r "T1529"); json (at_ r "percent_of_total");
           json (at_ r "Average Quintile"); json (at_ r "Average Score") ].
Proof.
  intros H. unfold point_of_row. cbn [customdata]. rewrite H. reflexivity.
Qed.




(** ** The trend series *)

Lemma trend_series_eq d :
  trend_series d
  = ([ "Before 1980"; "1980-1990"; "1991-2000"; "2001-2010";
       "2011-2021" ]%string,
     map (trend_value d)
         [ "T1530"; "T1531"; "T1532"; "T1533"; "T1534" ]%string).
Proof.
  unfold trend_series, trend_periods_ordered, trend_value, get0.
  cbn [fold_left map].
  destruct (data d !! "T1530"%string) as [[?|]|];
  destruct (data d !! "T1531"%string) as [[?|]|];
  destruct (data d !! "T1532"%string) as [[?|]|];
  destruct (data d !! "T1533"%string) as [[?|]|];
  destruct (data d !! "T1534"%string) as [[?|]|]; reflexivity.
Qed.

Lemma trend_value_set_cell c d v col_name :
  c <> col_name -> trend_value (set_cell c d v) col_name = trend_value d col_name.
Proof.
  intros H. unfold trend_value, set_cell. cbn [data].
  by rewrite lookup_insert_ne.
Qed.

(** C5: the trend series always has the five period labels in chronological
    order and, under them, the values of columns T1530 to T1534 with 0 for a
    missing value; the last one is the value of T1534 alone, whatever the
    record holds for the sub-periods T1535 and T1536; when all five are zero
    the panel shows the no-data text and no bar chart. *)
Theorem trend_series_fixed d :
  fst (trend_series d)
  = [ "Before 1980"; "1980-1990"; "1991-2000"; "2001-2010";
      "2011-2021" ]%string /\
  snd (trend_series d)
  = map (trend_value d) [ "T1530"; "T1531"; "T1532"; "T1533"; "T1534" ]%string /\
  length (fst (trend_series d)) = 5%nat /\
  length (snd (trend_series d)) = 5%nat /\
  (forall x y,
     trend_series (set_cell "T1535" (set_cell "T1536" d x) y)
     = trend_series d) /\
  (forall x y, trend_chart d = BarChart x y ->
     x = fst (trend_series d) /\ y = snd (trend_series d)) /\
  (Forall (fun v => v == 0) (snd (trend_series d)) ->
   trend_chart d
   = TrendNoData "No time trend data available for this region.").
Proof.
  assert (Hs := trend_series_eq d).
  split; [by rewrite Hs |]. split; [by rewrite Hs |].
  split; [by rewrite Hs |]. split; [by rewrite Hs |].
  split; [| split].
  - intros x y. rewrite !trend_series_eq. f_equal. cbn [map].
    by rewrite !trend_value_set_cell.
  - intros x y H. unfold trend_chart in H.
    destruct (trend_series d) as [labels vals]. cbn [fst snd].
    destruct (existsb _ _); [| discriminate]. by injection H as <- <-.
  - intros Hz. unfold trend_chart.
    destruct (trend_series d) as [labels vals]. cbn [snd] in Hz.
    assert (He : existsb (Qlt_bool 0) vals = false).
    { apply not_true_iff_false. intros He.
      apply existsb_exists in He as (v & Hv & Hpos).
      rewrite List.Forall_forall in Hz. specialize (Hz v Hv).
      apply Qlt_bool_iff in Hpos. lra. }
    rewrite He. reflexivity.
Qed.

(** ** The pie breakdown *)

Lemma fold_left_Qplus xs a : fold_left Qplus xs a == a + Qsum xs.
Proof.
  revert a. induction xs as [| x xs IH]; intros a; simpl.
  - unfold Qsum. simpl. lra.
  - rewrite IH. unfold Qsum. simpl. lra.
Qed.

Lemma py_sum_Qsum xs : py_sum xs == Qsum xs.
Proof. unfold py_sum. rewrite fold_left_Qplus. lra. Qed.

Lemma Qsum_pos xs : Forall (fun v => 0 < v) xs -> xs <> [] -> 0 < Qsum xs.
Proof.
  induction 1 as [| x xs Hx Hxs IH]; [congruence |]. intros _.
  unfold Qsum. simpl. change (fold_right Qplus 0 xs) with (Qsum xs).
  destruct xs as [| y ys].
  - unfold Qsum. simpl. lra.
  - assert (0 < Qsum (y :: ys)) by (apply IH; discriminate). lra.
Qed.

Lemma Qsum_nonneg xs : Forall (fun v => 0 < v) xs -> 0 <= Qsum xs.
Proof.
  intros H. destruct xs as [| x xs].
  - unfold Qsum. simpl. lra.
  - apply Qlt_le_weak, Qsum_pos; [assumption | discriminate].
Qed.

Lemma pie_loop total pie_data : forall labels vals others,
  fold_left (pie_step total) pie_data (labels, vals, others)
  = (labels ++ map fst (individual total pie_data),
     vals ++ map snd (individual total pie_data),
     fold_left Qplus (small_values total pie_data) others).
Proof.
  induction pie_data as [| [l c] pd IH]; intros labels vals others.
  - simpl. by rewrite !app_nil_r.
  - cbn [fold_left]. unfold pie_step at 2. cbn [fst snd].
    unfold individual, small_values. cbn [omap list_omap fst snd].
    fold (individual total pd). fold (small_values total pd).
    destruct c as [v |]; [| apply IH].
    destruct (Qlt_bool 0 v); [| apply IH].
    destruct (Qlt_bool 2 (v / total * 100)); cbn [andb negb].
    + rewrite IH. cbn [map fst snd]. by rewrite <- !app_assoc.
    + rewrite IH. reflexivity.
Qed.

Lemma pie_slices_eq pie_data :
  let total := total_origin_sum pie_data in
  0 < total ->
  let others := py_sum (small_values total pie_data) in
  pie_slices pie_data
  = (map fst (individual total pie_data)
       ++ others_slice string others "Others (<2%)"%string,
     map snd (individual total pie_data) ++ others_slice Q others others).
Proof.
  intros total Ht others. unfold pie_slices. fold total.
  rewrite (proj2 (Qlt_bool_iff _ _) Ht), pie_loop.
  fold (py_sum (small_values total pie_data)). fold others.
  unfold others_slice. destruct (Qlt_bool 0 others).
  - reflexivity.
  - by rewrite !app_nil_r.
Qed.

Lemma In_individual total pie_data l v :
  In (l, v) (individual total pie_data) <->
  In (l, Some v) pie_data /\ 0 < v /\ 2 < v / total * 100.
Proof.
  unfold individual. rewrite <- !list_elem_of_In, list_elem_of_omap. split.
  - intros [[l' c] [Hin H]]. cbn [fst snd] in H.
    destruct c as [w |]; [| discriminate].
    destruct (Qlt_bool 0 w) eqn:H0; [| discriminate].
    destruct (Qlt_bool 2 (w / total * 100)) eqn:H2; [| discriminate].
    injection H as <- <-. apply Qlt_bool_iff in H0, H2. auto.
  - intros (Hin & H0 & H2). exists (l, Some v). split; [exact Hin |].
    cbn [fst snd].
    by rewrite (proj2 (Qlt_bool_iff _ _) H0), (proj2 (Qlt_bool_iff _ _) H2).
Qed.

Lemma In_small_values total pie_data v :
  In v (small_values total pie_data) <->
  exists l, In (l, Some v) pie_data /\ 0 < v /\ v / total * 100 <= 2.
Proof.
  unfold small_values. rewrite <- list_elem_of_In, list_elem_of_omap. split.
  - intros [[l' c] [Hin H]]. cbn [fst snd] in H.
    destruct c as [w |]; [| discriminate].
    destruct (Qlt_bool 0 w) eqn:H0; [| discriminate].
    destruct (Qlt_bool 2 (w / total * 100)) eqn:H2; [discriminate |].
    injection H as <-. apply Qlt_bool_iff in H0. apply Qlt_bool_false in H2.
    exists l'. rewrite <- list_elem_of_In. auto.
  - intros (l & Hin & H0 & H2). exists (l, Some v).
    rewrite list_elem_of_In. split; [exact Hin |]. cbn [fst snd].
    by rewrite (proj2 (Qlt_bool_iff _ _) H0), (proj2 (Qlt_bool_false _ _) H2).
Qed.

(** Every positive value goes to exactly one of the two groups. *)
Lemma positive_split total pie_data :
  Qsum (dropna (List.filter positive (map snd pie_data)))
  == Qsum (map snd (individual total pie_data))
     + Qsum (small_values total pie_data).
Proof.
  induction pie_data as [| [l c] pd IH].
  - unfold Qsum. simpl. lra.
  - unfold individual, small_values.
    cbn [map List.filter omap list_omap fst snd].
    fold (individual total pd). fold (small_values total pd).
    destruct c as [v |]; cbn [positive]; [| exact IH].
    destruct (Qlt_bool 0 v); cbn [andb]; [| exact IH].
    unfold dropna in *. cbn [omap list_omap id].
    destruct (Qlt_bool 2 (v / total * 100)); cbn [negb map snd];
      unfold Qsum in *; cbn [fold_right]; rewrite IH; lra.
Qed.

Lemma small_values_pos total pie_data :
  Forall (fun v => 0 < v) (small_values total pie_data).
Proof.
  apply List.Forall_forall. intros v Hv.
  apply In_small_values in Hv as (_ & _ & H & _). exact H.
Qed.

Lemma individual_pos total pie_data :
  Forall (fun v => 0 < v) (map snd (individual total pie_data)).
Proof.
  apply List.Forall_forall. intros v Hv.
  apply in_map_iff in Hv as ([l w] & <- & Hin).
  apply In_individual in Hin as (_ & H & _). exact H.
Qed.

Lemma origin_pie_data_In d l c :
  In (l, c) (origin_pie_data d) <->
  exists col_name, In (l, col_name) origin_countries /\ c = get0 d col_name.
Proof.
  unfold origin_pie_data. rewrite in_map_iff. split.
  - intros [[l' col] [[= <- <-] Hin]]. eauto.
  - intros (col & Hin & ->). exists (l, col). auto.
Qed.

Lemma In_positive_values (pie_data : list (string * option Q)) v :
  In v (dropna (List.filter positive (map snd pie_data))) <->
  exists l, In (l, Some v) pie_data /\ 0 < v.
Proof.
  rewrite In_dropna, filter_In, in_map_iff. cbn [positive].
  rewrite Qlt_bool_iff. split.
  - intros [[[l c] [Hc Hin]] Hv]. cbn [snd] in Hc. subst c. eauto.
  - intros (l & Hin & Hv). split; [| exact Hv]. exists (l, Some v). auto.
Qed.

Lemma total_origin_sum_pos pie_data (l : string) v :
  In (l, Some v) pie_data -> 0 < v -> 0 < total_origin_sum pie_data.
Proof.
  intros Hin Hv. unfold total_origin_sum. rewrite py_sum_Qsum.
  apply Qsum_pos.
  - apply List.Forall_forall. intros w Hw.
    apply In_positive_values in Hw as (_ & _ & Hw). exact Hw.
  - intros Hnil.
    assert (H : In v (dropna (List.filter positive (map snd pie_data))))
      by (apply In_positive_values; eauto).
    rewrite Hnil in H. destruct H.
Qed.

Lemma total_origin_sum_none pie_data :
  (forall l c, In (l, c) pie_data -> positive c = false) ->
  pie_slices pie_data = ([], []).
Proof.
  intros H. unfold pie_slices.
  assert (Hnil : List.filter positive (map snd pie_data) = []).
  { induction pie_data as [| [l c] pd IH]; [reflexivity |].
    cbn [map snd List.filter]. rewrite (H l c) by (simpl; auto).
    apply IH. intros l' c' Hin. apply (H l' c'). simpl. auto. }
  unfold total_origin_sum. rewrite Hnil. reflexivity.
Qed.

Lemma others_slice_sum others :
  0 <= others -> Qsum (others_slice Q others others) == others.
Proof.
  intros H. unfold others_slice. destruct (Qlt_bool 0 others) eqn:E.
  - unfold Qsum. simpl. lra.
  - apply Qlt_bool_false in E. unfold Qsum. simpl. lra.
Qed.

Lemma pie_values_sum pie_data :
  let total := total_origin_sum pie_data in
  let others := py_sum (small_values total pie_data) in
  py_sum (map snd (individual total pie_data) ++ others_slice Q others others)
  == total.
Proof.
  intros total others.
  rewrite py_sum_Qsum, Qsum_app, others_slice_sum.
  - unfold others, total at 3, total_origin_sum.
    rewrite !py_sum_Qsum. symmetry. apply positive_split.
  - unfold others. rewrite py_sum_Qsum.
    apply Qsum_nonneg, small_values_pos.
Qed.

(** C4: when the record has a positive origin-country value the pie shows,
    by value, exactly the countries whose share of the sum of the positive
    values exceeds 2%, then one slice Others (<2%) holding the sum of the
    remaining positive values if there are any; every slice is positive and
    the slices add up to the sum of the positive values.  With no positive
    value the panel shows the no-data text. *)
Theorem pie_breakdown d :
  let pie_data := origin_pie_data d in
  let total := total_origin_sum pie_data in
  let others := py_sum (small_values total pie_data) in
  (forall l c, In (l, c) pie_data <->
     exists col_name, In (l, col_name) origin_countries /\
                      c = get0 d col_name) /\
  ((exists l v, In (l, Some v) pie_data /\ 0 < v) -> 0 < total) /\
  (0 < total ->
     exists names vals,
       pie_chart d = PieChart names vals /\
       names = map fst (individual total pie_data)
                 ++ others_slice string others "Others (<2%)"%string /\
       vals = map snd (individual total pie_data)
                ++ others_slice Q others others /\
       (forall l v, In (l, v) (individual total pie_data) <->
          In (l, Some v) pie_data /\ 0 < v /\ 2 < v / total * 100) /\
       (forall v, In v (small_values total pie_data) <->
          exists l, In (l, Some v) pie_data /\ 0 < v /\ v / total * 100 <= 2) /\
       (0 < others <-> small_values total pie_data <> []) /\
       Forall (fun v => 0 < v) vals /\
       py_sum vals == total) /\
  ((forall l c, In (l, c) pie_data -> positive c = false) ->
   pie_chart d
   = PieNoData
       "No detailed country of origin data available for this region.").
Proof.
  intros pie_data total others.
  split; [intros l c; apply origin_pie_data_In |].
  split; [intros (l & v & Hin & Hv); eapply total_origin_sum_pos; eauto |].
  split.
  - intros Ht.
    assert (Hsum := pie_values_sum pie_data). cbv zeta in Hsum.
    fold total others in Hsum.
    assert (Hoth : 0 < others <-> small_values total pie_data <> []).
    { unfold others. rewrite py_sum_Qsum. split.
      - intros H Hnil. rewrite Hnil in H. unfold Qsum in H. simpl in H. lra.
      - apply Qsum_pos, small_values_pos. }
    do 2 eexists. split; [| split; [reflexivity | split; [reflexivity |]]].
    + unfold pie_chart. fold pie_data.
      rewrite (pie_slices_eq pie_data Ht). fold total others.
      assert (Hp : Qlt_bool 0
                (py_sum (map snd (individual total pie_data)
                           ++ others_slice Q others others)) = true).
      { apply Qlt_bool_iff. rewrite Hsum. exact Ht. }
      rewrite Hp. reflexivity.
    + split; [apply In_individual |]. split; [apply In_small_values |].
      split; [exact Hoth |]. split; [| exact Hsum].
      apply Forall_app. split; [apply individual_pos |].
      unfold others_slice. destruct (Qlt_bool 0 others) eqn:E.
      * apply Qlt_bool_iff in E. constructor; [exact E | constructor].
      * constructor.
  - intros Hnone. unfold pie_chart. fold pie_data.
    rewrite (total_origin_sum_none pie_data Hnone). reflexivity.
Qed.

Lemma precedence_unique sel c c' :
  In (selected_data_type sel) (map fst title_column_selector) ->
  precedence sel c -> precedence sel c' -> c = c'.
Proof.
  intros _ (H1 & H2 & H3 & H4 & H5 & H6) (H1' & H2' & H3' & H4' & H5' & H6').
  destruct (String.eqb_spec (selected_data_type sel) "Immigrant number")
    as [Hdt | Hdt].
  - destruct (truthy (selected_country sel)) as [x |] eqn:Hc.
    { rewrite (H2 Hdt x eq_refl), (H2' Hdt x eq_refl). reflexivity. }
    destruct (truthy (selected_other_indicators sel)) as [x |] eqn:Ho.
    { rewrite (H3 Hdt eq_refl x eq_refl), (H3' Hdt eq_refl x eq_refl).
      reflexivity. }
    destruct (String.eqb_spec (selected_region sel) "T1529") as [Hr | Hr].
    + destruct (truthy (selected_accessibility sel)) as [x |] eqn:Ha.
      * rewrite (H5 Hdt eq_refl eq_refl Hr x eq_refl),
                (H5' Hdt eq_refl eq_refl Hr x eq_refl). reflexivity.
      * rewrite (H6 Hdt eq_refl eq_refl Hr eq_refl),
                (H6' Hdt eq_refl eq_refl Hr eq_refl). reflexivity.
    + rewrite (H4 Hdt eq_refl eq_refl Hr), (H4' Hdt eq_refl eq_refl Hr).
      reflexivity.
  - specialize (H1 Hdt). specialize (H1' Hdt). congruence.
Qed.

(** C1: for every selection whose data type is one of the data-type
    dropdown's options the resolver returns one column, the one the
    six-step precedence picks and the only one it picks; a selected country
    wins over a non-default region; and the column the map is coloured by
    is this column whatever the data frame holds. *)
Theorem resolve_column_precedence sel :
  In (selected_data_type sel) (map fst title_column_selector) ->
  exists data_column map_title,
    resolve_column sel = Ret (data_column, map_title) /\
    precedence sel data_column /\
    (forall c, precedence sel c -> c = data_column) /\
    (selected_data_type sel = "Immigrant number"%string ->
     forall c, truthy (selected_country sel) = Some c ->
               selected_region sel <> "T1529"%string -> data_column = c) /\
    (forall px df fig cache,
       update_map_and_stats px df sel = Ret (Map fig, cache) ->
       color fig = data_column /\ title fig = map_title).
Proof.
  intros Hin. destruct (resolve_column_total sel Hin) as (c & t & Hres).
  assert (Hp := resolve_column_Ret sel c t Hres).
  exists c, t. split; [exact Hres |]. split; [exact Hp |].
  split; [| split].
  - intros c' Hc'. apply (precedence_unique sel c' c Hin Hc' Hp).
  - intros Hdt x Hx _. destruct Hp as (_ & H2 & _). exact (H2 Hdt x Hx).
  - intros px df fig cache Hupd.
    destruct (update_map_inv px df sel _ _ Hupd)
      as (col & t' & df_plot & Hres' & Hf & _).
    rewrite Hres in Hres'. injection Hres' as <- <-.
    destruct (update_map_frame px df sel c t df_plot fig cache Hres Hf Hupd)
      as (_ & _ & Hcol & Ht & _).
    auto.
Qed.

Lemma resolve_column_precedence_witness :
  In (selected_data_type (sample_selection (Some "T1599"%string) "T1585" 0))
     (map fst title_column_selector) /\
  exists t,
    resolve_column (sample_selection (Some "T1599"%string) "T1585" 0)
    = Ret ("T1599"%string, t).
Proof.
  assert (H : In (selected_data_type
                    (sample_selection (Some "T1599"%string) "T1585" 0))
                 (map fst title_column_selector)) by (simpl; auto).
  split; [exact H |].
  destruct (resolve_column_precedence _ H) as (c & t & Hres & _ & _ & Hc & _).
  exists t. rewrite Hres. f_equal. f_equal.
  apply Hc; [reflexivity | reflexivity | discriminate].
Defined.

Lemma filter_stage_keeps_witness :
  has_column sample_df "T1529" = true /\ unit_interval 0 /\
  exists df_plot,
    filter_stage sample_df "T1529" 0 = Ret df_plot /\
    map ADAUID (records df_plot)
    = [ "35010001"; "35010002"; "35010004" ]%string.
Proof.
  assert (Hc : has_column sample_df "T1529" = true) by reflexivity.
  assert (Hq : unit_interval 0) by (split; discriminate).
  split; [exact Hc |]. split; [exact Hq |].
  destruct (filter_stage_keeps sample_df "T1529" 0 Hc Hq)
    as (df_plot & Hf & _ & _ & _ & _ & H0).
  exists df_plot. split; [exact Hf |].
  rewrite H0; reflexivity.
Defined.

Lemma quantile_filter_monotone_witness :
  has_column sample_df "T1529" = true /\
  unit_interval (1 # 2) /\ unit_interval (9 # 10) /\ (1 # 2) <= (9 # 10) /\
  exists kept1 kept2,
    filter_stage sample_df "T1529" (1 # 2) = Ret kept1 /\
    filter_stage sample_df "T1529" (9 # 10) = Ret kept2 /\
    (length (records kept2) <= length (records kept1))%nat.
Proof.
  assert (Hc : has_column sample_df "T1529" = true) by reflexivity.
  assert (H1 : unit_interval (1 # 2)) by (split; discriminate).
  assert (H2 : unit_interval (9 # 10)) by (split; discriminate).
  assert (Hle : (1 # 2) <= (9 # 10)) by discriminate.
  repeat (split; [assumption |]).
  exact (quantile_filter_monotone sample_df "T1529" _ _ Hc H1 H2 Hle).
Defined.

(** ** The properties on the small data set *)

Lemma sample_stage :
  exists df_plot,
    filter_stage sample_df "T1529" 0 = Ret df_plot /\ records df_plot <> [].
Proof.
  eexists. split.
  - apply filter_stage_eq; [reflexivity | split; discriminate].
  - vm_compute. discriminate.
Defined.

Lemma filter_stage_nonempty_witness :
  has_column sample_df "T1529" = true /\ unit_interval (99 # 100) /\
  (exists r, In r (records sample_df) /\ at_ r "T1529" <> None) /\
  exists df_plot,
    filter_stage sample_df "T1529" (99 # 100) = Ret df_plot /\
    records df_plot <> [].
Proof.
  assert (Hc : has_column sample_df "T1529" = true) by reflexivity.
  assert (Hq : unit_interval (99 # 100)) by (split; discriminate).
  assert (Hr : exists r, In r (records sample_df) /\ at_ r "T1529" <> None).
  { eexists. split; [left; reflexivity | discriminate]. }
  repeat (split; [assumption |]).
  destruct (filter_stage_nonempty sample_df "T1529" _ Hc Hq Hr)
    as [(df_plot & Hf & Hne & _) _].
  eauto.
Defined.

Lemma color_scale_upper_bound_witness :
  exists df_plot,
    filter_stage sample_df "T1529" 0 = Ret df_plot /\
    records df_plot <> [] /\
    exists ub, color_upper_bound (series df_plot "T1529") = Ret (Some ub).
Proof.
  destruct sample_stage as (df_plot & Hf & Hne).
  exists df_plot. split; [exact Hf |]. split; [exact Hne |].
  destruct (color_scale_upper_bound sample_df "T1529" 0 df_plot Hf Hne)
    as (q99 & mx & _ & _ & _ & _ & Hub & _).
  eauto.
Defined.

Lemma no_rows_placeholder_witness :
  exists t df_plot,
    resolve_column (sample_selection None "T1603" 0)
    = Ret ("T1603"%string, t) /\
    filter_stage sample_df "T1603" 0 = Ret df_plot /\
    records df_plot = [] /\
    update_map_and_stats no_failure sample_df (sample_selection None "T1603" 0)
    = Ret (EmptyMap "No Data Available", None).
Proof.
  eexists. eexists.
  assert (Hr : resolve_column (sample_selection None "T1603" 0)
               = Ret ("T1603"%string, "Immigration by T1603"%string))
    by reflexivity.
  assert (Hf : filter_stage sample_df "T1603" 0
               = Ret {| columns := columns sample_df; records := [] |})
    by (vm_compute; reflexivity).
  split; [exact Hr |]. split; [exact Hf |]. split; [reflexivity |].
  exact (proj1 (no_rows_placeholder no_failure sample_df _ _ _ _ Hr Hf
                  eq_refl)).
Defined.



Lemma pie_breakdown_witness :
  let d := sample_row "35010001"
             [ ("T1546", Some 100); ("T1547", Some 1); ("T1550", None);
               ("T1551", Some (-3)); ("T1552", Some 50) ]%string in
  0 < total_origin_sum (origin_pie_data d) /\
  exists names vals,
    pie_chart d = PieChart names vals /\
    py_sum vals == total_origin_sum (origin_pie_data d).
Proof.
  intros d.
  assert (Ht : 0 < total_origin_sum (origin_pie_data d))
    by (vm_compute; reflexivity).
  split; [exact Ht |].
  destruct (pie_breakdown d) as (_ & _ & H & _).
  destruct (H Ht) as (names & vals & Hc & _ & _ & _ & _ & _ & _ & Hs).
  eauto.
Defined.

Lemma trend_series_fixed_witness :
  let d := sample_row "35010003"
             [ ("T1530", Some 0); ("T1531", None); ("T1534", Some 0) ]%string in
  Forall (fun v => v == 0) (snd (trend_series d)) /\
  trend_chart d = TrendNoData "No time trend data available for this region.".
Proof.
  intros d.
  assert (Hz : Forall (fun v => v == 0) (snd (trend_series d))).
  { repeat constructor. }
  split; [exact Hz |].
  destruct (trend_series_fixed d) as (_ & _ & _ & _ & _ & _ & H).
  exact (H Hz).
Defined.

(** * Properties beyond the specification's list *)

(** * Further properties of the map handler *)

Lemma Series_quantile_99 s :
  Series_quantile s (99 # 100)
  = Ret (quantile_sorted (merge_sort Qle (dropna s)) (99 # 100)).
Proof. reflexivity. Qed.

Lemma color_upper_bound_Ret kept : exists ub, color_upper_bound kept = Ret ub.
Proof.
  unfold color_upper_bound. rewrite Series_quantile_99.
  cbn [mbind exc_bind].
  destruct (quantile_sorted _ _) as [m |]; [| eauto].
  destruct (Qle_bool m 0); eauto.
Qed.

Lemma filter_stage_columns df col q df_plot :
  filter_stage df col q = Ret df_plot -> has_column df_plot col = true.
Proof.
  intros H. apply filter_stage_inv in H as (Hc & _ & Hcols & _).
  unfold has_column in *. rewrite Hcols. exact Hc.
Qed.

Section MapHandlerCases.
Variable px_raises : choropleth -> option string.

(** The handler after a successful filter stage with kept rows. *)
Lemma update_map_kept df sel col t df_plot :
  resolve_column sel = Ret (col, t) ->
  filter_stage df col (selected_quantile sel) = Ret df_plot ->
  records df_plot <> [] ->
  exists ub,
    color_upper_bound (series df_plot col) = Ret ub /\
    update_map_and_stats px_raises df sel =
      match px_raises (figure_of df_plot col t ub) with
      | Some e => Ret (EmptyMap ("Error: " ++ e)%string, None)
      | None =>
          Ret (Map (figure_of df_plot col t ub),
               Some (to_dict_records (frame (figure_of df_plot col t ub))))
      end.
Proof.
  intros Hr Hf Hne.
  destruct (color_upper_bound_Ret (series df_plot col)) as [ub Hub].
  exists ub. split; [exact Hub |].
  unfold update_map_and_stats. rewrite Hr. cbn [mbind exc_bind].
  rewrite Hf. cbn [mbind exc_bind].
  destruct (records df_plot) as [| r0 rs] eqn:Hrec; [congruence |].
  cbn [length Nat.eqb]. unfold getitem.
  rewrite (filter_stage_columns df col _ df_plot Hf).
  cbn [mbind exc_bind]. rewrite Hub. cbn [mbind exc_bind].
  reflexivity.
Qed.
End MapHandlerCases.

(** X1: a resolved column that is neither a numeric column of the frame
    nor one of its three text columns makes the handler raise [KeyError]:
    line 407 is outside the [try] of lines 427-489, so no placeholder map
    is returned. *)
Theorem update_map_missing_column px df sel col t :
  resolve_column sel = Ret (col, t) ->
  has_column df col = false -> ~ In col text_columns ->
  update_map_and_stats px df sel = Raise KeyError.
Proof.
  intros Hr Hc _. unfold update_map_and_stats. rewrite Hr.
  cbn [mbind exc_bind]. rewrite (filter_stage_KeyError df col _ Hc).
  reflexivity.
Qed.

(** X2: a quantile outside [0, 1] makes the handler raise [ValueError]
    (line 408), whatever the rows hold. *)
Theorem update_map_bad_quantile px df sel col t :
  resolve_column sel = Ret (col, t) -> has_column df col = true ->
  (selected_quantile sel < 0 \/ 1 < selected_quantile sel) ->
  update_map_and_stats px df sel = Raise ValueError.
Proof.
  intros Hr Hc Hq. unfold update_map_and_stats. rewrite Hr.
  cbn [mbind exc_bind]. unfold filter_stage, getitem.
  rewrite has_column_filter_rows, Hc. cbn [mbind exc_bind].
  unfold Series_quantile.
  assert (Hb : Qle_bool 0 (selected_quantile sel)
               && Qle_bool (selected_quantile sel) 1 = false).
  { apply andb_false_iff. destruct Hq as [Hq | Hq]; [left | right];
      apply not_true_iff_false; rewrite Qle_bool_iff; lra. }
  rewrite Hb. reflexivity.
Qed.

(** X3: with the resolved column in the frame and a quantile in [0, 1] the
    handler raises nothing.  It answers with the no-data map when every cell
    of the column is missing, with an error map carrying the renderer's
    message when the renderer raises, and otherwise with the map and one
    cached record per kept row; the cache is [None] in the first two
    cases. *)
Theorem update_map_outcomes px df sel col t :
  resolve_column sel = Ret (col, t) -> has_column df col = true ->
  unit_interval (selected_quantile sel) ->
  (update_map_and_stats px df sel = Ret (EmptyMap "No Data Available", None) /\
   forall r, In r (records df) -> at_ r col = None) \/
  (exists c e,
     px c = Some e /\
     update_map_and_stats px df sel
     = Ret (EmptyMap ("Error: " ++ e)%string, None)) \/
  (exists c,
     px c = None /\ records (frame c) <> [] /\
     length (to_dict_records (frame c)) = length (records (frame c)) /\
     update_map_and_stats px df sel
     = Ret (Map c, Some (to_dict_records (frame c)))).
Proof.
  intros Hr Hc Hq.
  assert (Hf := filter_stage_eq df col _ Hc Hq).
  set (df_plot := {| columns := columns df; records := _ |}) in Hf.
  destruct (records df_plot) as [| r0 rs] eqn:Hrec.
  - left. split.
    + eapply update_map_no_rows; eassumption.
    + intros r Hin. destruct (at_ r col) as [v |] eqn:Hv; [| reflexivity].
      exfalso.
      assert (Hfull : In r (full_rows df col))
        by (apply In_full_rows; split; congruence).
      destruct (threshold_of_Some df col (selected_quantile sel) r Hfull)
        as [th Hth].
      destruct (quantile_sorted_top _ _ th (sorted_values_sorted _ col) Hq Hth)
        as (m & Hm & Htm & _).
      apply In_sorted_values in Hm as (r1 & Hr1 & Hv1).
      assert (Hk : In r1 (records df_plot)).
      { cbn [records df_plot]. apply filter_In. split; [exact Hr1 |].
        apply cell_ge_true. exists m, th. auto. }
      rewrite Hrec in Hk. destruct Hk.
  - right.
    assert (Hne : records df_plot <> []) by (rewrite Hrec; discriminate).
    destruct (update_map_kept px df sel col t df_plot Hr Hf Hne)
      as (ub & _ & Hupd).
    destruct (px (figure_of df_plot col t ub)) as [e |] eqn:Hpx.
    + left. eauto.
    + right. exists (figure_of df_plot col t ub).
      split; [exact Hpx |]. split; [| split; [| exact Hupd]].
      * cbn [frame figure_of]. rewrite setitem_percent_records, Hrec.
        discriminate.
      * unfold to_dict_records. apply length_map.
Qed.

(** * The cache and the click *)

Lemma has_column_In df c : has_column df c = true <-> In c (columns df).
Proof.
  unfold has_column. rewrite existsb_exists. split.
  - intros (x & Hx & He). apply String.eqb_eq in He. by subst x.
  - intros H. exists c. split; [exact H | apply String.eqb_refl].
Qed.

Lemma lookup_keyed_map (f : string -> option Q) (cols : list string) c :
  (list_to_map (map (fun c => (c, f c)) cols) : gmap string (option Q)) !! c
  = if existsb (String.eqb c) cols then Some (f c) else None.
Proof.
  induction cols as [| c' cols IH]; [reflexivity |].
  cbn [map list_to_map existsb foldr fst snd uncurry].
  destruct (String.eqb_spec c c') as [-> | Hne]; cbn [orb].
  - apply lookup_insert_eq.
  - rewrite lookup_insert_ne by congruence. exact IH.
Qed.

Lemma to_dict_records_map df : to_dict_records df = map (to_dict df) (records df).
Proof. reflexivity. Qed.

Lemma to_dict_get0 df r c :
  get0 (to_dict df r) c = if has_column df c then at_ r c else Some 0.
Proof.
  unfold get0, to_dict. cbn [data]. rewrite lookup_keyed_map.
  unfold has_column. destruct (existsb _ _); reflexivity.
Qed.

(** X4: the cached records are the frame's rows one for one, with the same
    three text fields; a record holds exactly the frame's columns, so that
    [.get(c, 0)] returns the row's cell for a column of the frame and 0 for
    any other name. *)
Theorem to_dict_records_round_trip df :
  length (to_dict_records df) = length (records df) /\
  forall i r, records df !! i = Some r ->
    exists d,
      to_dict_records df !! i = Some d /\
      ADAUID d = ADAUID r /\ PRNAME d = PRNAME r /\ CSDNAME d = CSDNAME r /\
      (forall c, has_column df c = true ->
         data d !! c = Some (at_ r c) /\ get0 d c = at_ r c) /\
      (forall c, has_column df c = false ->
         data d !! c = None /\ get0 d c = Some 0).
Proof.
  split; [apply length_map |]. intros i r Hi. exists (to_dict df r).
  split; [by rewrite to_dict_records_map, list_lookup_fmap, Hi |].
  repeat (split; [reflexivity |]).
  split; intros c Hc.
  - split; [| by rewrite to_dict_get0, Hc].
    unfold to_dict. cbn [data]. rewrite lookup_keyed_map.
    unfold has_column in Hc. by rewrite Hc.
  - split; [| by rewrite to_dict_get0, Hc].
    unfold to_dict. cbn [data]. rewrite lookup_keyed_map.
    unfold has_column in Hc. by rewrite Hc.
Qed.

Lemma find_first_match (cache : list row) (id : string) d0 :
  In d0 cache -> ADAUID d0 = id ->
  exists d, List.find (fun d => String.eqb (ADAUID d) id) cache = Some d /\
            In d cache /\ ADAUID d = id.
Proof.
  intros Hin Hid.
  destruct (List.find _ cache) as [d |] eqn:Hf.
  - apply find_some in Hf as [H1 H2]. apply String.eqb_eq in H2. eauto.
  - exfalso. apply (find_none _ _ Hf) in Hin.
    rewrite Hid, String.eqb_refl in Hin. discriminate.
Qed.

Lemma NoDup_map_filter {A B} (f : A -> B) (p : A -> bool) l :
  List.NoDup (map f l) -> List.NoDup (map f (List.filter p l)).
Proof.
  induction l as [| a l IH]; [intros; constructor |].
  cbn [map List.filter]. intros H. inversion H as [| ? ? Hn Hl]; subst.
  destruct (p a); [| exact (IH Hl)].
  cbn [map]. constructor; [| exact (IH Hl)].
  intros Hin. apply Hn. apply in_map_iff in Hin as (x & Hx & Hin).
  apply filter_In in Hin as [Hin _]. apply in_map_iff. eauto.
Qed.

Lemma NoDup_map_inj_on {A B} (f : A -> B) l x y :
  List.NoDup (map f l) -> In x l -> In y l -> f x = f y -> x = y.
Proof.
  induction l as [| a l IH]; [intros _ []|].
  cbn [map]. intros H Hx Hy Hxy. inversion H as [| ? ? Hn Hl]; subst.
  destruct Hx as [-> | Hx], Hy as [-> | Hy].
  - reflexivity.
  - exfalso. apply Hn. rewrite Hxy. apply in_map. exact Hy.
  - exfalso. apply Hn. rewrite <- Hxy. apply in_map. exact Hx.
  - exact (IH Hl Hx Hy Hxy).
Qed.

Lemma click_found fig r cache d a p s :
  custom_data fig = custom_data_columns ->
  at_ r "T1529" = Some a -> at_ r "percent_of_total" = Some p ->
  at_ r "Average Score" = Some s ->
  cache <> [] ->
  List.find (fun d => String.eqb (ADAUID d) (ADAUID r)) cache = Some d ->
  update_stats_on_click (Some [point_of_row fig r]) (Some cache)
  = Ret (Details
           {| city := Str (CSDNAME r); province := Str (PRNAME r);
              zone := Str (ADAUID r);
              total_immigrants_region := a;
              percent_of_immigrants := p * 100;
              cimd_quintile := json (at_ r "Average Quintile");
              cimd_score := s |}
           (pie_chart d) (trend_chart d)).
Proof.
  intros Hcd Ha Hp Hs Hne Hfind. unfold update_stats_on_click.
  destruct cache as [| c0 cs]; [congruence |].
  cbn [list_item lookup list_lookup mbind exc_bind].
  rewrite (custom_data_of_row fig r Hcd), Ha, Hp, Hs.
  cbn [length Nat.ltb Nat.leb list_item lookup list_lookup mbind exc_bind
       as_float json].
  cbn [location point_of_row]. rewrite Hfind. reflexivity.
Qed.

(** X5: a click on a point of the map the handler has just returned is
    answered from the cache the handler returned with it: when the point's
    T1529 and Average Score are numbers the panel holds the pie and the
    trend of a cached record with the clicked id, never the
    not-found texts; and when the ids of the data frame are distinct that
    record is the clicked row's own, so every [.get(c, 0)] of the charts
    reads the clicked row's cell. *)
Theorem click_reads_cached_record px df sel fig cache r' a s :
  update_map_and_stats px df sel = Ret (Map fig, cache) ->
  In r' (records (frame fig)) ->
  at_ r' "T1529" = Some a -> at_ r' "Average Score" = Some s ->
  exists info d records_,
    cache = Some records_ /\ In d records_ /\ ADAUID d = ADAUID r' /\
    update_stats_on_click (Some [point_of_row fig r']) cache
    = Ret (Details info (pie_chart d) (trend_chart d)) /\
    (List.NoDup (map ADAUID (records df)) ->
     forall c, get0 d c = if has_column (frame fig) c then at_ r' c
                          else Some 0).
Proof.
  intros Hupd Hin Ha Hs.
  destruct (update_map_inv px df sel _ _ Hupd)
    as (col & t & df_plot & Hres & Hf & _).
  destruct (update_map_frame px df sel col t df_plot fig cache Hres Hf Hupd)
    as (Hframe & Hcd & _ & _ & Hcache).
  assert (Hp : exists p, at_ r' "percent_of_total" = Some p).
  { assert (Hrec := setitem_percent_records df_plot col).
    rewrite <- Hframe in Hrec. rewrite Hrec in Hin.
    apply in_map_iff in Hin as (r & <- & Hr).
    rewrite at_set_cell.
    destruct (kept_rows_have_values df col _ df_plot r Hf Hr) as [v ->].
    unfold percent_entry, percent_cell. destruct (Qlt_bool _ _); eauto. }
  destruct Hp as [p Hp].
  set (recs := to_dict_records (frame fig)) in *.
  assert (Hd0 : In (to_dict (frame fig) r') recs).
  { unfold recs. rewrite to_dict_records_map. apply in_map. exact Hin. }
  destruct (find_first_match recs (ADAUID r') _ Hd0 eq_refl)
    as (d & Hfind & Hd & Hid).
  assert (Hne : recs <> []) by (intros E; rewrite E in Hd0; destruct Hd0).
  eexists. exists d, recs. split; [exact Hcache |].
  split; [exact Hd |]. split; [exact Hid |]. split.
  - rewrite Hcache.
    exact (click_found fig r' recs d a p s Hcd Ha Hp Hs Hne Hfind).
  - intros Hnd c.
    unfold recs in Hd. rewrite to_dict_records_map in Hd.
    apply in_map_iff in Hd as (r'' & <- & Hr'').
    rewrite to_dict_get0.
    assert (Heq : r'' = r').
    { apply (NoDup_map_inj_on ADAUID (records (frame fig))); try assumption.
      rewrite Hframe, setitem_percent_records, map_map. cbn [ADAUID set_cell].
      apply filter_stage_inv in Hf as (_ & _ & _ & Hrecs). rewrite Hrecs.
      unfold full_rows. by do 2 apply NoDup_map_filter. }
    by rewrite Heq.
Qed.

(** * Malformed click payloads *)

Lemma click_seven_entries pt pts cache0 cache cd :
  customdata pt = Some cd -> (7 <= length cd)%nat ->
  forall msg,
    update_stats_on_click (Some (pt :: pts)) (Some (cache0 :: cache))
    <> Ret (Guidance msg).
Proof.
  intros Hcd Hlen msg. unfold update_stats_on_click.
  cbn [list_item lookup list_lookup mbind exc_bind]. rewrite Hcd.
  destruct (Nat.ltb_spec (length cd) 7) as [Hlt | _]; [lia |].
  destruct cd as [| c0 [| c1 [| c2 [| c3 [| c4 [| c5 [| c6 cd]]]]]]];
    cbn [length] in Hlen; try lia.
  cbn [list_item lookup list_lookup mbind exc_bind].
  destruct c3; cbn [as_float mbind exc_bind]; try discriminate.
  destruct c4; cbn [as_float mbind exc_bind]; try discriminate.
  destruct c6; cbn [as_float mbind exc_bind]; try discriminate.
  destruct (List.find _ _); discriminate.
Qed.

Lemma click_customdata_issue pt pts cache0 cache :
  customdata_issue pt ->
  update_stats_on_click (Some (pt :: pts)) (Some (cache0 :: cache))
  = Ret (Guidance "Click on a region to see details (customdata issue).").
Proof.
  unfold customdata_issue, update_stats_on_click.
  cbn [list_item lookup list_lookup mbind exc_bind].
  destruct (customdata pt) as [cd |]; [| reflexivity].
  intros Hlt. apply Nat.ltb_lt in Hlt. rewrite Hlt. reflexivity.
Qed.

(** X6: the click handler answers with a guidance text exactly when there
    was no click, the cache is absent or empty, or the first point has no
    [customdata] or fewer than 7 entries; the text is the plain one in the
    first cases and the customdata one in the last. *)
Theorem click_guidance pt pts cache :
  (forall c,
     update_stats_on_click None c
     = Ret (Guidance "Click on a region to see details.")) /\
  ((exists msg,
      update_stats_on_click (Some (pt :: pts)) cache = Ret (Guidance msg)) <->
   cache = None \/ cache = Some [] \/ customdata_issue pt) /\
  (cache = None \/ cache = Some [] ->
   update_stats_on_click (Some (pt :: pts)) cache
   = Ret (Guidance "Click on a region to see details.")) /\
  (forall c0 cs, cache = Some (c0 :: cs) -> customdata_issue pt ->
   update_stats_on_click (Some (pt :: pts)) cache
   = Ret (Guidance "Click on a region to see details (customdata issue).")).
Proof.
  split; [reflexivity |]. split; [| split].
  - split.
    + intros [msg H]. destruct cache as [[| c0 cs] |]; auto.
      right. right. unfold customdata_issue.
      destruct (customdata pt) as [cd |] eqn:Hcd; [| exact I].
      destruct (Nat.lt_ge_cases (length cd) 7) as [Hlt | Hge]; [exact Hlt |].
      destruct (click_seven_entries pt pts c0 cs cd Hcd Hge msg H).
    + intros [-> | [-> | Hissue]]; [eexists; reflexivity .. |].
      destruct cache as [[| c0 cs] |]; [eexists; reflexivity | |
                                        eexists; reflexivity].
      eexists. apply click_customdata_issue, Hissue.
  - intros [-> | ->]; reflexivity.
  - intros c0 cs -> Hissue. apply click_customdata_issue, Hissue.
Qed.

(** X7: a map row whose T1529 or Average Score cell is missing reaches the
    browser with [null] in that place; a click on it makes the float format
    of line 520 or 523 raise [TypeError] instead of producing a panel. *)
Theorem click_missing_number_raises px df sel fig cache r' :
  update_map_and_stats px df sel = Ret (Map fig, cache) ->
  In r' (records (frame fig)) ->
  at_ r' "T1529" = None \/ at_ r' "Average Score" = None ->
  update_stats_on_click (Some [point_of_row fig r']) cache = Raise TypeError.
Proof.
  intros Hupd Hin Hmiss.
  destruct (update_map_inv px df sel _ _ Hupd)
    as (col & t & df_plot & Hres & Hf & _).
  destruct (update_map_frame px df sel col t df_plot fig cache Hres Hf Hupd)
    as (Hframe & Hcd & _ & _ & Hcache).
  assert (Hp : exists p, at_ r' "percent_of_total" = Some p).
  { assert (Hrec := setitem_percent_records df_plot col).
    rewrite <- Hframe in Hrec. rewrite Hrec in Hin.
    apply in_map_iff in Hin as (r & <- & Hr).
    rewrite at_set_cell.
    destruct (kept_rows_have_values df col _ df_plot r Hf Hr) as [v ->].
    unfold percent_entry, percent_cell. destruct (Qlt_bool _ _); eauto. }
  destruct Hp as [p Hp].
  rewrite Hcache. unfold to_dict_records.
  destruct (records (frame fig)) as [| x l]; [destruct Hin |].
  cbn [map]. unfold update_stats_on_click.
  cbn [list_item lookup list_lookup mbind exc_bind].
  rewrite (custom_data_of_row fig r' Hcd), Hp.
  cbn [length Nat.ltb Nat.leb list_item lookup list_lookup mbind exc_bind].
  destruct (at_ r' "T1529") as [a |]; [| reflexivity].
  cbn [json as_float mbind exc_bind].
  destruct Hmiss as [Hm | Hm]; [discriminate |]. rewrite Hm. reflexivity.
Qed.

(** * Top quantiles *)

Lemma inject_Z_sub1 z : inject_Z (z - 1) == inject_Z z - 1.
Proof.
  unfold Z.sub. rewrite inject_Z_plus, inject_Z_opp.
  change (inject_Z 1) with 1. lra.
Qed.

(** Above the last but one order statistic the quantile separates the
    greatest value from all the others. *)
Lemma quantile_at_near_top xs d h x :
  StronglySorted Qle xs -> (0 < length xs)%nat ->
  0 <= h -> h <= inject_Z (Z.of_nat (length xs - 1)) ->
  inject_Z (Z.of_nat (length xs - 1)) - 1 < h ->
  In x xs ->
  (quantile_at xs d h <= x <-> nth (length xs - 1) xs d <= x).
Proof.
  intros Hs Hne H0 Htop Hnear Hin.
  set (n1 := (length xs - 1)%nat) in *.
  assert (Hh : 0 <= h <= inject_Z (Z.of_nat n1)) by lra.
  destruct (floor_index _ _ Hh) as [Hi Hz].
  destruct (quantile_at_between xs d Hs Hne h Hh) as [Hlo Hup]. fold n1 in Hup.
  assert (Hlast : quantile_at xs d h <= nth n1 xs d)
    by (apply quantile_at_le_last; assumption).
  split; [| intros Hx; lra].
  intros Hx. destruct (In_nth _ _ d Hin) as (j & Hj & <-).
  destruct (Nat.eq_dec j n1) as [-> | Hjn]; [lra |].
  (* x is at most the last but one element *)
  assert (Hfl : (Z.of_nat n1 - 1 <= Qfloor h)%Z).
  { assert (Hle : inject_Z (Z.of_nat n1 - 1) <= h).
    { rewrite inject_Z_sub1. lra. }
    apply Qfloor_resp_le in Hle. rewrite Qfloor_Z in Hle. exact Hle. }
  destruct (Nat.eq_dec (Z.to_nat (Qfloor h)) n1) as [Hfn | Hfn].
  - (* the virtual index is the last index: the quantile is the maximum *)
    rewrite Hfn in Hlo. lra.
  - assert (Hi2 : Z.to_nat (Qfloor h) = (n1 - 1)%nat) by lia.
    assert (Hn1 : (1 <= n1)%nat) by lia.
    assert (Hfz : Qfloor h = (Z.of_nat n1 - 1)%Z) by lia.
    assert (Hja : nth j xs d <= nth (n1 - 1) xs d)
      by (apply sorted_nth_le; [assumption | lia]).
    assert (Hab : nth (n1 - 1) xs d <= nth n1 xs d)
      by (apply sorted_nth_le; [assumption | lia]).
    unfold quantile_at in Hx. fold n1 in Hx.
    rewrite Hi2 in Hx.
    replace (Nat.min (n1 - 1 + 1) n1) with n1 in Hx by lia.
    rewrite Hfz in Hx. unfold lerp in Hx.
    assert (Hg : 0 < h - inject_Z (Z.of_nat n1 - 1)).
    { rewrite inject_Z_sub1. lra. }
    set (g := h - inject_Z (Z.of_nat n1 - 1)) in *.
    set (a := nth (n1 - 1) xs d) in *. set (b := nth n1 xs d) in *.
    assert (Hprod : (b - a) * g <= 0) by lra.
    assert (Hba : b - a <= 0).
    { destruct (Qlt_le_dec 0 (b - a)) as [Hpos | Hnp]; [| exact Hnp].
      assert (0 < (b - a) * g) by (apply Qmult_lt_0_compat; assumption).
      lra. }
    assert (Hnn : 0 <= (b - a) * g) by (apply Qmult_le_0_compat; lra).
    lra.
Qed.

Lemma dropna_filter_notna {A} (f : A -> option Q) l :
  dropna (map f (List.filter (fun a => notna (f a)) l)) = dropna (map f l).
Proof.
  unfold dropna. induction l as [| a l IH]; [reflexivity |].
  cbn [List.filter map]. destruct (f a) as [v |] eqn:Hv; cbn [notna].
  - cbn [map omap list_omap]. rewrite Hv. cbn [id omap list_omap].
    f_equal. exact IH.
  - exact IH.
Qed.

Lemma length_sorted_full df col :
  length (sorted_values (full_rows df col) col)
  = length (dropna (series df col)).
Proof.
  unfold sorted_values, values_of, full_rows, series.
  rewrite merge_sort_Permutation. by rewrite dropna_filter_notna.
Qed.

Lemma threshold_near_top df col q th r v :
  unit_interval q ->
  inject_Z (Z.of_nat (length (dropna (series df col)) - 1)) * (1 - q) < 1 ->
  threshold_of df col q = Some th ->
  In r (records df) -> at_ r col = Some v ->
  (th <= v <->
   forall r' v', In r' (records df) -> at_ r' col = Some v' -> v' <= v).
Proof.
  intros Hq Hnear Hth Hin Hv. unfold threshold_of in Hth.
  assert (Hlen := length_sorted_full df col).
  assert (Hmem := fun x => In_sorted_values (full_rows df col) col x).
  assert (Hs := sorted_values_sorted (full_rows df col) col).
  destruct (sorted_values (full_rows df col) col) as [| x0 xs'];
    [discriminate |].
  set (xs := x0 :: xs') in *. cbn [quantile_sorted] in Hth. fold xs in Hth.
  injection Hth as <-.
  assert (Hall : forall r' v', In r' (records df) -> at_ r' col = Some v' ->
                               In v' xs).
  { intros r' v' Hr' Hv'. apply Hmem. exists r'.
    split; [| exact Hv']. apply In_full_rows. split; congruence. }
  assert (Hpos : (0 < length xs)%nat) by (cbn [length xs]; lia).
  pose proof (virtual_index_bounds (length xs) q Hq) as [Hv0 Hv1].
  assert (Hsep : quantile_at xs x0 (virtual_index (length xs) q) <= v <->
                 nth (length xs - 1) xs x0 <= v).
  { apply quantile_at_near_top; try assumption.
    - unfold virtual_index. rewrite Hlen.
      set (top := inject_Z (Z.of_nat (length (dropna (series df col)) - 1)))
        in *.
      destruct Hq. lra.
    - eapply Hall; eassumption. }
  etransitivity; [exact Hsep |]. split.
  - intros Hmax r' v' Hr' Hv'. eapply Qle_trans; [| exact Hmax].
    destruct (In_nth _ _ x0 (Hall r' v' Hr' Hv')) as (j & Hj & <-).
    apply sorted_nth_le; [assumption | lia].
  - intros Hmax.
    assert (Hm : In (nth (length xs - 1) xs x0) xs) by (apply nth_In; lia).
    apply Hmem in Hm as (r1 & Hr1 & Hv1').
    apply In_full_rows in Hr1 as [Hr1 _].
    exact (Hmax r1 _ Hr1 Hv1').
Qed.

(** X8: when the quantile is so high that fewer than one position separates
    it from the top, [(n - 1) * (1 - q) < 1] for [n] valued rows, the kept
    rows are exactly the rows holding the greatest value.  This is the case
    of Top 1% on at most 100 valued rows. *)
Theorem top_quantile_keeps_maxima df col q :
  has_column df col = true -> unit_interval q ->
  inject_Z (Z.of_nat (length (dropna (series df col)) - 1)) * (1 - q) < 1 ->
  exists df_plot,
    filter_stage df col q = Ret df_plot /\
    forall r,
      In r (records df_plot) <->
      In r (records df) /\
      exists v, at_ r col = Some v /\
                forall r' v', In r' (records df) -> at_ r' col = Some v' ->
                              v' <= v.
Proof.
  intros Hc Hq Hnear. eexists. split; [apply filter_stage_eq; assumption |].
  cbn [records]. intros r.
  rewrite filter_In, In_full_rows, cell_ge_true. split.
  - intros [[Hin Hna] (v & th & Hv & Hth & Hle)]. split; [exact Hin |].
    exists v. split; [exact Hv |].
    apply (threshold_near_top df col q th r v Hq Hnear Hth Hin Hv), Hle.
  - intros [Hin (v & Hv & Hmax)]. split; [split; [exact Hin | congruence] |].
    assert (Hfull : In r (full_rows df col))
      by (apply In_full_rows; split; congruence).
    destruct (threshold_of_Some df col q r Hfull) as [th Hth].
    exists v, th. split; [exact Hv |]. split; [exact Hth |].
    apply (threshold_near_top df col q th r v Hq Hnear Hth Hin Hv), Hmax.
Qed.

(** * Ranges *)

Lemma rint_range y n :
  0 <= y <= inject_Z n -> (0 <= rint y <= n)%Z.
Proof.
  intros [H0 Hn]. unfold rint.
  pose proof (Qfloor_le y) as Hlo. pose proof (Qlt_floor y) as Hhi.
  rewrite inject_Z_plus in Hhi. change (inject_Z 1) with 1 in Hhi.
  assert (Hf0 : (0 <= Qfloor y)%Z).
  { apply Qfloor_resp_le in H0. exact H0. }
  assert (Hfn : (Qfloor y <= n)%Z).
  { apply Qfloor_resp_le in Hn. rewrite Qfloor_Z in Hn. exact Hn. }
  assert (Hup : Qfloor y = n -> y - inject_Z (Qfloor y) <= 0).
  { intros E. rewrite E. lra. }
  destruct (Qcompare_spec (y - inject_Z (Qfloor y)) (1 # 2)) as [He | Hl | Hg].
  - destruct (Z.even (Qfloor y)); [lia |].
    destruct (Z.eq_dec (Qfloor y) n) as [E | E]; [| lia].
    specialize (Hup E). lra.
  - lia.
  - destruct (Z.eq_dec (Qfloor y) n) as [E | E]; [| lia].
    specialize (Hup E). lra.
Qed.

Lemma round4_unit x : 0 <= x <= 1 -> 0 <= round4 x <= 1.
Proof.
  intros Hx. unfold round4.
  assert (H : 0 <= x * 10000 <= inject_Z 10000).
  { change (inject_Z 10000) with 10000. lra. }
  apply rint_range in H. destruct H as [H0 H1].
  rewrite Zle_Qle in H0, H1. change (inject_Z 0) with 0 in H0.
  change (inject_Z 10000) with 10000 in H1.
  unfold Qdiv. change (/ 10000) with (1 # 10000). lra.
Qed.

Lemma Qsum_ge_member xs x :
  Forall (fun v => 0 <= v) xs -> In x xs -> x <= Qsum xs.
Proof.
  induction 1 as [| y ys Hy Hys IH]; [intros [] |].
  unfold Qsum. cbn [fold_right]. change (fold_right Qplus 0 ys) with (Qsum ys).
  assert (Hnn : 0 <= Qsum ys).
  { clear IH. induction Hys as [| z zs Hz Hzs IHz];
      unfold Qsum; cbn [fold_right]; [lra |].
    change (fold_right Qplus 0 zs) with (Qsum zs). lra. }
  intros [-> | Hin]; [lra |]. specialize (IH Hin). lra.
Qed.

(** X9: when no kept value is negative and their sum is positive and
    below 2^63, so that the 64-bit column sum is the sum, every derived
    percent-of-total value lies between 0 and 100. *)
Theorem percent_of_total_range kept :
  Forall (fun c => exists v, c = Some v /\ 0 <= v) kept ->
  0 < Series_sum kept -> Series_sum kept < inject_Z (2 ^ 63) ->
  Forall (fun c => exists p, c = Some p /\ 0 <= p <= 100)
         (percent_of_total kept).
Proof.
  intros Hnn Ht _.
  assert (Hvals : Forall (fun v => 0 <= v) (dropna kept)).
  { apply List.Forall_forall. intros v Hv. apply In_dropna in Hv.
    rewrite List.Forall_forall in Hnn.
    destruct (Hnn _ Hv) as (w & [= <-] & Hw). exact Hw. }
  rewrite percent_of_total_map. apply List.Forall_forall. intros c Hc.
  apply in_map_iff in Hc as (c0 & <- & Hc0).
  rewrite List.Forall_forall in Hnn. destruct (Hnn _ Hc0) as (v & -> & Hv).
  unfold percent_entry, percent_cell.
  rewrite (proj2 (Qlt_bool_iff _ _) Ht).
  eexists. split; [reflexivity |].
  assert (Hle : v <= Series_sum kept).
  { apply Qsum_ge_member; [exact Hvals | by apply In_dropna]. }
  assert (Hu : 0 <= v / Series_sum kept <= 1).
  { split.
    - apply Qle_shift_div_l; [exact Ht | lra].
    - apply Qle_shift_div_r; [exact Ht | lra]. }
  apply round4_unit in Hu. lra.
Qed.

(** X10: on kept values the upper end of the colour scale never exceeds
    the greatest kept value, and it is positive exactly when that value
    is. *)
Theorem color_bound_at_most_max kept :
  dropna kept <> [] ->
  exists ub mx,
    color_upper_bound kept = Ret (Some ub) /\
    Series_max kept = Some mx /\
    ub <= mx /\ (0 < ub <-> 0 < mx).
Proof.
  intros Hne.
  destruct (Series_max_spec kept Hne) as (mx & Hmx & Hin & Hub).
  unfold color_upper_bound, Series_quantile.
  change (Qle_bool 0 (99 # 100) && Qle_bool (99 # 100) 1) with true.
  cbn [mbind exc_bind].
  destruct (quantile_sorted (merge_sort Qle (dropna kept)) (99 # 100))
    as [q99 |] eqn:Hq.
  - assert (Hs : StronglySorted Qle (merge_sort Qle (dropna kept)))
      by (apply StronglySorted_merge_sort; apply _).
    assert (Hu : unit_interval (99 # 100)) by (split; discriminate).
    destruct (quantile_sorted_top _ _ q99 Hs Hu Hq) as (m & Hm & Hqm & _).
    rewrite <- list_elem_of_In, merge_sort_Permutation, list_elem_of_In in Hm.
    specialize (Hub m Hm).
    destruct (Qle_bool q99 0) eqn:E.
    + apply Qle_bool_iff in E. rewrite Hmx. exists mx, mx.
      repeat split; auto; lra.
    + exists q99, mx.
      assert (0 < q99).
      { destruct (Qlt_le_dec 0 q99) as [H | H]; [exact H |].
        apply Qle_bool_iff in H. congruence. }
      repeat split; auto; lra.
  - apply quantile_sorted_None in Hq. apply (f_equal length) in Hq.
    rewrite merge_sort_Permutation in Hq.
    destruct (dropna kept); [congruence | discriminate].
Qed.

(** X11: writing a column of as many cells as the frame has rows into the
    frame and reading it back gives the cells; every other column, the ids
    and the number of rows are unchanged, and no column is lost. *)
Theorem setitem_round_trip df col vals :
  length vals = length (records df) ->
  series (setitem df col vals) col = vals /\
  (forall c, c <> col -> series (setitem df col vals) c = series df c) /\
  map ADAUID (records (setitem df col vals)) = map ADAUID (records df) /\
  has_column (setitem df col vals) col = true /\
  (forall c, has_column df c = true ->
             has_column (setitem df col vals) c = true).
Proof.
  intros Hlen. unfold series, setitem. cbn [records columns].
  repeat split.
  - revert vals Hlen. induction (records df) as [| r rs IH];
      intros [| v vs] Hlen; try discriminate; [reflexivity |].
    cbn [zip_with map]. rewrite at_set_cell. f_equal. apply IH.
    by injection Hlen.
  - intros c Hc. revert vals Hlen. induction (records df) as [| r rs IH];
      intros [| v vs] Hlen; try discriminate; [reflexivity |].
    cbn [zip_with map]. f_equal; [| apply IH; by injection Hlen].
    unfold at_, set_cell. cbn [data]. by rewrite lookup_insert_ne.
  - revert vals Hlen. induction (records df) as [| r rs IH];
      intros [| v vs] Hlen; try discriminate; [reflexivity |].
    cbn [zip_with map]. f_equal. apply IH. by injection Hlen.
  - unfold has_column. cbn [columns].
    destruct (existsb (String.eqb col) (columns df)) eqn:E; [exact E |].
    rewrite existsb_app. cbn [existsb]. rewrite String.eqb_refl.
    by rewrite orb_true_r.
  - intros c Hc. unfold has_column in *. cbn [columns].
    destruct (existsb (String.eqb col) (columns df)); [exact Hc |].
    by rewrite existsb_app, Hc.
Qed.

(** * Shape of the charts *)

Lemma individual_labels_NoDup total (pie_data : list (string * option Q)) :
  List.NoDup (map fst pie_data) ->
  List.NoDup (map fst (individual total pie_data)) /\
  forall l, In l (map fst (individual total pie_data)) ->
            In l (map fst pie_data).
Proof.
  intros Hnd.
  assert (Hsub : forall l, In l (map fst (individual total pie_data)) ->
                           In l (map fst pie_data)).
  { intros l Hl. apply in_map_iff in Hl as ([l' v] & <- & Hin).
    apply In_individual in Hin as (Hin & _). apply in_map_iff.
    exists (l', Some v). auto. }
  split; [| exact Hsub]. clear Hsub.
  induction pie_data as [| [l c] pd IH]; [constructor |].
  cbn [map fst] in Hnd. inversion Hnd as [| ? ? Hn Hl]; subst.
  unfold individual. cbn [omap list_omap fst snd]. fold (individual total pd).
  destruct c as [v |]; [| exact (IH Hl)].
  destruct (Qlt_bool 0 v && Qlt_bool 2 (v / total * 100)); [| exact (IH Hl)].
  cbn [map fst]. constructor; [| exact (IH Hl)].
  intros Hin. apply Hn. apply in_map_iff in Hin as ([l' w] & Hl' & Hin).
  cbn [fst] in Hl'. subst l'.
  apply In_individual in Hin as (Hin & _). apply in_map_iff.
  exists (l, Some w). auto.
Qed.

Lemma origin_labels_NoDup : List.NoDup (map fst origin_countries).
Proof. apply NoDup_ListNoDup. by apply (bool_decide_unpack _); vm_compute. Qed.

Lemma origin_pie_data_labels d :
  map fst (origin_pie_data d) = map fst origin_countries.
Proof.
  unfold origin_pie_data. rewrite map_map. apply map_ext. by intros [l c].
Qed.

Lemma others_not_a_country :
  ~ In "Others (<2%)"%string (map fst origin_countries).
Proof.
  rewrite <- list_elem_of_In. apply (bool_decide_unpack _). by vm_compute.
Qed.

Lemma individual_sublist total (pie_data : list (string * option Q)) :
  sublist (map fst (individual total pie_data)) (map fst pie_data).
Proof.
  induction pie_data as [| [l c] pd IH]; [constructor |].
  unfold individual. cbn [omap list_omap fst snd map].
  fold (individual total pd).
  destruct c as [v |]; [| by constructor].
  destruct (Qlt_bool 0 v && Qlt_bool 2 (v / total * 100));
    cbn [map fst]; by constructor.
Qed.

Lemma origin_labels_length : length (map fst origin_countries) = 26%nat.
Proof. reflexivity. Qed.

(** The slices of a record with a positive total. *)
Lemma pie_slices_shape (pd : list (string * option Q)) ls vs :
  map fst pd = map fst origin_countries ->
  0 < total_origin_sum pd ->
  pie_slices pd = (ls, vs) ->
  length ls = length vs /\
  (length ls <= 27)%nat /\
  List.NoDup ls /\
  exists countries others,
    ls = countries ++ others /\
    sublist countries (map fst origin_countries) /\
    (others = [] \/ others = ["Others (<2%)"%string]).
Proof.
  intros Hlab Ht Hs. rewrite (pie_slices_eq pd Ht) in Hs.
  remember (total_origin_sum pd) as total eqn:Htot. clear Htot Ht.
  remember (py_sum (small_values total pd)) as others eqn:Hoth'.
  clear Hoth'. injection Hs as <- <-.
  destruct (individual_labels_NoDup total pd) as [Hnd Hsub].
  { rewrite Hlab. apply origin_labels_NoDup. }
  assert (Hsl := individual_sublist total pd). rewrite Hlab in Hsl.
  assert (Hlen := sublist_length _ _ Hsl). rewrite origin_labels_length in Hlen.
  assert (Hoth : ~ In "Others (<2%)"%string (map fst (individual total pd))).
  { intros Hin. apply Hsub in Hin. rewrite Hlab in Hin.
    exact (others_not_a_country Hin). }
  assert (Hl2 : length (map fst (individual total pd))
                = length (map snd (individual total pd)))
    by (by rewrite !length_map).
  remember (map fst (individual total pd)) as countries eqn:Hc. clear Hc.
  remember (map snd (individual total pd)) as cvals eqn:Hcv. clear Hcv.
  unfold others_slice. destruct (Qlt_bool 0 others).
  - split; [rewrite !length_app; cbn [length]; lia |].
    split; [rewrite length_app; cbn [length]; lia |].
    split.
    + apply NoDup_ListNoDup, NoDup_app. split; [by apply NoDup_ListNoDup |].
      split; [| apply NoDup_singleton].
      intros x Hx Hx'. apply list_elem_of_singleton in Hx'. subst x.
      apply Hoth, list_elem_of_In, Hx.
    + exists countries, ["Others (<2%)"%string]. auto.
  - rewrite !app_nil_r. split; [exact Hl2 |].
    split; [lia |]. split; [exact Hnd |].
    exists countries, []. rewrite app_nil_r. auto.
Qed.

Lemma pie_slices_nonpos (pd : list (string * option Q)) :
  total_origin_sum pd <= 0 -> pie_slices pd = ([], []).
Proof.
  intros Ht. unfold pie_slices.
  by rewrite (proj2 (Qlt_bool_false _ _) Ht).
Qed.

Lemma pie_chart_slices d names vals :
  pie_chart d = PieChart names vals ->
  pie_slices (origin_pie_data d) = (names, vals) /\
  0 < total_origin_sum (origin_pie_data d).
Proof.
  unfold pie_chart.
  generalize (origin_pie_data d). intros pd.
  destruct (Qlt_le_dec 0 (total_origin_sum pd)) as [Ht | Ht].
  - destruct (pie_slices pd) as [ls vs].
    destruct (Qlt_bool 0 (py_sum vs)); [| discriminate].
    intros H. injection H as <- <-. auto.
  - rewrite (pie_slices_nonpos pd Ht). discriminate.
Qed.

(** X12: whenever a pie is drawn its names and values have the same
    length, at most 27; the names are distinct, each a country label of the
    catalog or the Others label, in catalog order with Others last. *)
Theorem pie_chart_shape d names vals :
  pie_chart d = PieChart names vals ->
  length names = length vals /\
  (length names <= 27)%nat /\
  List.NoDup names /\
  exists countries others,
    names = countries ++ others /\
    sublist countries (map fst origin_countries) /\
    (others = [] \/ others = ["Others (<2%)"%string]).
Proof.
  intros H. apply pie_chart_slices in H as [Hs Ht].
  exact (pie_slices_shape _ names vals (origin_pie_data_labels d) Ht Hs).
Qed.

Lemma trend_value_pos d c :
  0 < trend_value d c <-> exists v, data d !! c = Some (Some v) /\ 0 < v.
Proof.
  unfold trend_value. destruct (data d !! c) as [[v |] |]; split.
  - intros H. eauto.
  - intros (w & [= <-] & H). exact H.
  - intros H. lra.
  - intros (w & [=] & _).
  - intros H. lra.
  - intros (w & [=] & _).
Qed.

(** X13: the bar chart is drawn exactly when the record holds a positive
    number in one of the five period columns; records whose period values
    are all zero, negative, missing or absent get the no-data text. *)
Theorem trend_chart_drawn d :
  let period_columns :=
    [ "T1530"; "T1531"; "T1532"; "T1533"; "T1534" ]%string in
  ((exists x y, trend_chart d = BarChart x y) <->
   exists c v, In c period_columns /\ data d !! c = Some (Some v) /\ 0 < v) /\
  ((forall c v, In c period_columns -> data d !! c = Some (Some v) ->
                v <= 0) ->
   trend_chart d
   = TrendNoData "No time trend data available for this region.").
Proof.
  intros cols.
  assert (Hex : existsb (Qlt_bool 0) (map (trend_value d) cols) = true <->
                exists c v, In c cols /\ data d !! c = Some (Some v) /\ 0 < v).
  { rewrite existsb_exists. split.
    - intros (x & Hx & Hpos). apply in_map_iff in Hx as (c & <- & Hc).
      apply Qlt_bool_iff, trend_value_pos in Hpos as (v & Hv & Hp). eauto.
    - intros (c & v & Hc & Hv & Hp). exists (trend_value d c).
      split; [by apply in_map |].
      apply Qlt_bool_iff, trend_value_pos. eauto. }
  unfold trend_chart. rewrite trend_series_eq. fold cols.
  destruct (existsb (Qlt_bool 0) (map (trend_value d) cols)) eqn:E.
  - split.
    + split; [intros _; by apply Hex | eauto].
    + intros Hall. exfalso.
      destruct (proj1 Hex eq_refl) as (c & v & Hc & Hv & Hp).
      specialize (Hall c v Hc Hv). lra.
  - split; [| reflexivity]. split.
    + intros (x & y & [=]).
    + intros H. apply Hex in H. discriminate.
Qed.

(** * The join *)

Lemma In_merge {A B} (left_on : A -> string) (right_on : B -> string)
    gdf df_csv l r :
  In (l, r) (merge left_on right_on gdf df_csv) <->
  In l gdf /\ In r df_csv /\ left_on l = right_on r.
Proof.
  unfold merge. rewrite in_flat_map. split.
  - intros (l' & Hl & Hin). apply in_map_iff in Hin as (r' & [= <- <-] & Hr).
    apply filter_In in Hr as [Hr He]. apply String.eqb_eq in He. auto.
  - intros (Hl & Hr & He). exists l. split; [exact Hl |].
    apply in_map, filter_In. split; [exact Hr |]. by apply String.eqb_eq.
Qed.

Lemma merge_keys_NoDup {A B} (left_on : A -> string) (right_on : B -> string)
    gdf df_csv :
  List.NoDup (map left_on gdf) -> List.NoDup (map right_on df_csv) ->
  List.NoDup (map (fun p => left_on (fst p))
                  (merge left_on right_on gdf df_csv)).
Proof.
  intros Hl Hr. unfold merge.
  induction gdf as [| l gdf IH]; [constructor |].
  cbn [map] in Hl. inversion Hl as [| ? ? Hn Hl']; subst.
  cbn [flat_map]. rewrite map_app, map_map. cbn [fst].
  apply NoDup_ListNoDup, NoDup_app. split; [| split].
  - apply NoDup_ListNoDup. clear -Hr.
    induction df_csv as [| r rs IHr]; [constructor |].
    cbn [map] in Hr. inversion Hr as [| ? ? Hnr Hr']; subst.
    cbn [List.filter].
    destruct (String.eqb_spec (left_on l) (right_on r)) as [He | He];
      [| exact (IHr Hr')].
    cbn [map]. constructor; [| exact (IHr Hr')].
    intros Hin. apply in_map_iff in Hin as (r' & _ & Hin).
    apply filter_In in Hin as [Hin He']. apply String.eqb_eq in He'.
    apply Hnr. rewrite <- He, He'. by apply in_map.
  - intros k Hk Hk'. apply list_elem_of_In in Hk, Hk'.
    apply in_map_iff in Hk as (r & <- & _).
    apply in_map_iff in Hk' as ([l' r'] & Hkey & Hin). cbn [fst] in Hkey.
    apply in_flat_map in Hin as (l'' & Hl'' & Hin).
    apply in_map_iff in Hin as (r'' & [= <- <-] & _).
    apply Hn. rewrite <- Hkey. by apply in_map.
  - apply NoDup_ListNoDup, IH, Hl'.
Qed.

(** X14: the join keeps exactly the pairs of a shapefile row and a CSV row
    with the same id, so a region missing on either side is dropped;
    start-up exits exactly when no id occurs on both sides; and ids that are
    distinct in both sources are distinct in the joined frame. *)
Theorem merge_inner_join {A B : Type} (left_on : A -> string)
    (right_on : B -> string) (gdf : list A) (df_csv : list B) :
  (forall l r,
     In (l, r) (merge left_on right_on gdf df_csv) <->
     In l gdf /\ In r df_csv /\ left_on l = right_on r) /\
  (merge_or_exit left_on right_on gdf df_csv = Exit <->
   forall l r, In l gdf -> In r df_csv -> left_on l <> right_on r) /\
  (forall merged,
     merge_or_exit left_on right_on gdf df_csv = Continue merged ->
     merged = merge left_on right_on gdf df_csv /\ merged <> []) /\
  (List.NoDup (map left_on gdf) -> List.NoDup (map right_on df_csv) ->
   List.NoDup (map (fun p => left_on (fst p))
                   (merge left_on right_on gdf df_csv))).
Proof.
  split; [intros l r; apply In_merge |]. split; [| split].
  - unfold merge_or_exit.
    destruct (merge left_on right_on gdf df_csv) as [| [l0 r0] m] eqn:Hm.
    + split; [| reflexivity]. intros _ l r Hl Hr He.
      assert (Hin : In (l, r) (merge left_on right_on gdf df_csv))
        by (apply In_merge; auto).
      rewrite Hm in Hin. destruct Hin.
    + cbn [length Nat.eqb]. split; [discriminate |]. intros Hno. exfalso.
      assert (Hin : In (l0, r0) (merge left_on right_on gdf df_csv))
        by (rewrite Hm; left; reflexivity).
      apply In_merge in Hin as (Hl & Hr & He). exact (Hno l0 r0 Hl Hr He).
  - intros merged. unfold merge_or_exit.
    destruct (merge left_on right_on gdf df_csv) as [| p m];
      cbn [length Nat.eqb]; [discriminate |].
    intros [= <-]. split; [reflexivity | discriminate].
  - apply merge_keys_NoDup.
Qed.

(** * The columns of [df_data] and the dropdowns *)

Lemma existsb_eqb_In (c : string) l :
  existsb (String.eqb c) l = true <-> In c l.
Proof.
  rewrite existsb_exists. split.
  - intros (x & Hx & He). apply String.eqb_eq in He. by subst x.
  - intros H. exists c. split; [exact H | apply String.eqb_refl].
Qed.

Lemma startswith_Transit c :
  startswith c "Transit" = true -> startswith c "T" = true.
Proof.
  unfold startswith. destruct c as [| a c]; [discriminate |].
  cbn [String.prefix]. destruct (Ascii.ascii_dec _ a); [| discriminate].
  intros _. by destruct c.
Qed.

Lemma In_t_cols merged c :
  In c (t_cols merged) <->
  In c merged /\ (startswith c "T" = true \/ startswith c "Walking" = true).
Proof.
  unfold t_cols. rewrite filter_In, !orb_true_iff.
  pose proof (startswith_Transit c). tauto.
Qed.

(** X15: [df_data] gets the nine fixed columns followed by exactly the
    merged columns whose name starts with T or with Walking (the test for
    Transit adds nothing), in the merged frame's order; the selection
    raises [KeyError] exactly when one of the nine is not a column of the
    merged frame. *)
Theorem df_data_columns_spec merged :
  (forall c, In c (t_cols merged) <->
     In c merged /\
     (startswith c "T" = true \/ startswith c "Walking" = true)) /\
  sublist (t_cols merged) merged /\
  ((forall c, In c fixed_columns -> In c merged) ->
   df_data_columns merged = Ret (fixed_columns ++ t_cols merged)) /\
  ((exists c, In c fixed_columns /\ ~ In c merged) ->
   df_data_columns merged = Raise KeyError).
Proof.
  split; [apply In_t_cols |]. split; [| split].
  - unfold t_cols. induction merged as [| c l IH]; [constructor |].
    cbn [List.filter]. destruct (_ || _); by constructor.
  - intros Hall. unfold df_data_columns.
    assert (H : forallb (fun c => existsb (String.eqb c) merged)
                  (fixed_columns ++ t_cols merged) = true).
    { apply forallb_forall. intros c Hc. apply existsb_eqb_In.
      apply in_app_or in Hc as [Hc | Hc]; [by apply Hall |].
      by apply In_t_cols in Hc as [Hc _]. }
    by rewrite H.
  - intros (c & Hc & Hn). unfold df_data_columns.
    assert (H : forallb (fun c => existsb (String.eqb c) merged)
                  (fixed_columns ++ t_cols merged) = false).
    { apply not_true_iff_false. intros H.
      rewrite forallb_forall in H. apply Hn, existsb_eqb_In, H.
      apply in_or_app. by left. }
    by rewrite H.
Qed.

Lemma truthy_Some o x : truthy o = Some x -> o = Some x.
Proof.
  unfold truthy. destruct o as [s |]; [| discriminate].
  destruct (String.eqb s ""); [discriminate |]. by intros [= <-].
Qed.

Lemma resolve_from_dropdowns sel col t :
  from_dropdowns sel -> resolve_column sel = Ret (col, t) ->
  In col resolvable_columns.
Proof.
  intros (Hp & Hr & Hc & Ha & _ & Hd & Ho) Hres.
  apply resolve_column_Ret in Hres as (H1 & H2 & H3 & H4 & H5 & H6).
  unfold resolvable_columns.
  destruct (String.eqb_spec (selected_data_type sel) "Immigrant number")
    as [Hdt | Hdt].
  - destruct (truthy (selected_country sel)) as [x |] eqn:Ec.
    { rewrite (H2 Hdt x eq_refl). apply truthy_Some in Ec.
      rewrite Ec in Hc. cbn [cleared_or] in Hc.
      apply in_or_app. right. apply in_or_app. by left. }
    destruct (truthy (selected_other_indicators sel)) as [x |] eqn:Eo.
    { rewrite (H3 Hdt eq_refl x eq_refl). apply truthy_Some in Eo.
      rewrite Eo in Ho. cbn [cleared_or] in Ho.
      do 2 (apply in_or_app; right). apply in_or_app. by left. }
    destruct (String.eqb_spec (selected_region sel) "T1529") as [Er | Er].
    + destruct (truthy (selected_accessibility sel)) as [x |] eqn:Ea.
      * rewrite (H5 Hdt eq_refl eq_refl Er x eq_refl).
        apply truthy_Some in Ea. rewrite Ea in Ha. cbn [cleared_or] in Ha.
        do 4 (apply in_or_app; right). apply in_or_app. by left.
      * rewrite (H6 Hdt eq_refl eq_refl Er eq_refl).
        do 5 (apply in_or_app; right). exact Hp.
    + rewrite (H4 Hdt eq_refl eq_refl Er).
      do 3 (apply in_or_app; right). apply in_or_app. by left.
  - specialize (H1 Hdt). apply in_or_app. left.
    unfold data_type_options in Hd. cbn [map fst title_column_selector] in Hd.
    destruct Hd as [Hd | [Hd | [Hd | [Hd | []]]]]; subst;
      [congruence | | |]; rewrite <- Hd in H1; cbn in H1;
      injection H1 as <-; cbn; auto.
Qed.

Lemma resolvable_columns_loaded :
  forallb (fun c => existsb (String.eqb c) fixed_columns
                    || startswith c "T" || startswith c "Walking")
          resolvable_columns = true.
Proof. by vm_compute. Qed.

Lemma quantile_options_unit q : In q quantile_options -> unit_interval q.
Proof.
  cbn [quantile_options In].
  intros [<- | [<- | [<- | [<- | [<- | []]]]]]; split; discriminate.
Qed.

(** X16: every selection the seven dropdowns can produce resolves to a
    column and carries a quantile in [0, 1]; the column is one of the fixed
    columns of [df_data] or starts with T or Walking, so [df_data] has it
    exactly when the merged frame has it.  For a data type other than
    Immigrant number [df_data] always has it. *)
Theorem dropdown_selection_loaded sel merged cols :
  from_dropdowns sel -> df_data_columns merged = Ret cols ->
  exists col t,
    resolve_column sel = Ret (col, t) /\
    unit_interval (selected_quantile sel) /\
    (In col cols <-> In col merged) /\
    (selected_data_type sel <> "Immigrant number"%string -> In col cols).
Proof.
  intros Hsel Hload.
  assert (Hd := Hsel). destruct Hd as (_ & _ & _ & _ & Hq & Hd & _).
  destruct (resolve_column_total sel Hd) as (col & t & Hres).
  exists col, t. split; [exact Hres |].
  split; [exact (quantile_options_unit _ Hq) |].
  assert (Hin := resolve_from_dropdowns sel col t Hsel Hres).
  pose proof resolvable_columns_loaded as Hall.
  rewrite forallb_forall in Hall. specialize (Hall col Hin).
  unfold df_data_columns in Hload.
  destruct (forallb _ _) eqn:Hf; [| discriminate]. injection Hload as <-.
  rewrite forallb_forall in Hf.
  assert (Hsub : forall c, In c (fixed_columns ++ t_cols merged) ->
                           In c merged).
  { intros c Hc. by apply existsb_eqb_In, Hf. }
  split.
  - split; [apply Hsub |]. intros Hm.
    apply (in_or_app fixed_columns (t_cols merged)).
    rewrite !orb_true_iff in Hall. destruct Hall as [[Hfix | HT] | HW].
    + left. by apply existsb_eqb_In.
    + right. apply In_t_cols. auto.
    + right. apply In_t_cols. auto.
  - intros Hdt. apply (in_or_app fixed_columns (t_cols merged)). left.
    apply resolve_column_Ret in Hres as (H1 & _). specialize (H1 Hdt).
    unfold data_type_options in Hd. cbn [map fst title_column_selector] in Hd.
    destruct Hd as [Hd | [Hd | [Hd | [Hd | []]]]]; subst;
      [congruence | | |]; rewrite <- Hd in H1; cbn in H1;
      injection H1 as <-; cbn; auto 10.
Qed.

(** * Instances on the small data set *)

Lemma update_map_missing_column_witness :
  resolve_column (sample_selection None "T1545" 0)
  = Ret ("T1545"%string, "Immigration by T1545"%string) /\
  has_column sample_df "T1545" = false /\
  ~ In "T1545"%string text_columns /\
  update_map_and_stats no_failure sample_df (sample_selection None "T1545" 0)
  = Raise KeyError.
Proof.
  assert (Hr : resolve_column (sample_selection None "T1545" 0)
               = Ret ("T1545"%string, "Immigration by T1545"%string))
    by reflexivity.
  assert (Hc : has_column sample_df "T1545" = false) by reflexivity.
  assert (Ht : ~ In "T1545"%string text_columns).
  { cbn [text_columns In]. intros [H | [H | [H | []]]]; discriminate H. }
  split; [exact Hr |]. split; [exact Hc |]. split; [exact Ht |].
  exact (update_map_missing_column no_failure sample_df _ _ _ Hr Hc Ht).
Defined.

Lemma update_map_bad_quantile_witness :
  resolve_column (sample_selection None "T1529" 2)
  = Ret ("T1529"%string, "Immigration by T1529"%string) /\
  has_column sample_df "T1529" = true /\
  (selected_quantile (sample_selection None "T1529" 2) < 0 \/
   1 < selected_quantile (sample_selection None "T1529" 2)) /\
  update_map_and_stats no_failure sample_df (sample_selection None "T1529" 2)
  = Raise ValueError.
Proof.
  assert (Hr : resolve_column (sample_selection None "T1529" 2)
               = Ret ("T1529"%string, "Immigration by T1529"%string))
    by reflexivity.
  assert (Hc : has_column sample_df "T1529" = true) by reflexivity.
  assert (Hq : selected_quantile (sample_selection None "T1529" 2) < 0 \/
               1 < selected_quantile (sample_selection None "T1529" 2))
    by (right; reflexivity).
  split; [exact Hr |]. split; [exact Hc |]. split; [exact Hq |].
  exact (update_map_bad_quantile no_failure sample_df _ _ _ Hr Hc Hq).
Defined.

Lemma update_map_outcomes_witness :
  resolve_column (sample_selection None "T1529" 0)
  = Ret ("T1529"%string, "Immigration by T1529"%string) /\
  has_column sample_df "T1529" = true /\
  unit_interval (selected_quantile (sample_selection None "T1529" 0)) /\
  exists fig cache,
    update_map_and_stats no_failure sample_df (sample_selection None "T1529" 0)
    = Ret (fig, cache).
Proof.
  assert (Hr : resolve_column (sample_selection None "T1529" 0)
               = Ret ("T1529"%string, "Immigration by T1529"%string))
    by reflexivity.
  assert (Hc : has_column sample_df "T1529" = true) by reflexivity.
  assert (Hq : unit_interval
                 (selected_quantile (sample_selection None "T1529" 0)))
    by (split; discriminate).
  split; [exact Hr |]. split; [exact Hc |]. split; [exact Hq |].
  destruct (update_map_outcomes no_failure sample_df _ _ _ Hr Hc Hq)
    as [[H _] | [(c & e & _ & H) | (c & _ & _ & _ & H)]]; eauto.
Defined.

Lemma click_reads_cached_record_witness :
  exists fig cache r',
    update_map_and_stats no_failure sample_df (sample_selection None "T1529" 0)
    = Ret (Map fig, cache) /\
    In r' (records (frame fig)) /\
    at_ r' "T1529" = Some 10 /\ at_ r' "Average Score" = Some (12 # 10) /\
    exists info d,
      ADAUID d = ADAUID r' /\
      update_stats_on_click (Some [point_of_row fig r']) cache
      = Ret (Details info (pie_chart d) (trend_chart d)).
Proof.
  assert (H : exists fig cache r',
             update_map_and_stats no_failure sample_df
               (sample_selection None "T1529" 0) = Ret (Map fig, cache) /\
             In r' (records (frame fig)) /\
             at_ r' "T1529" = Some 10 /\
             at_ r' "Average Score" = Some (12 # 10)).
  { eexists _, _, _. split; [vm_compute; reflexivity |].
    cbn [records frame]. split; [left; reflexivity |].
    split; vm_compute; reflexivity. }
  destruct H as (fig & cache & r' & Hupd & Hin & Ha & Hs).
  exists fig, cache, r'. repeat (split; [assumption |]).
  destruct (click_reads_cached_record _ _ _ _ _ _ _ _ Hupd Hin Ha Hs)
    as (info & d & recs & _ & _ & Hid & Hclick & _).
  eauto.
Defined.

Lemma click_missing_number_raises_witness :
  exists fig cache r',
    update_map_and_stats no_failure sample_df
      (sample_selection (Some "T1599"%string) "T1529" 0)
    = Ret (Map fig, cache) /\
    In r' (records (frame fig)) /\
    (at_ r' "T1529" = None \/ at_ r' "Average Score" = None) /\
    update_stats_on_click (Some [point_of_row fig r']) cache = Raise TypeError.
Proof.
  assert (H : exists fig cache r',
             update_map_and_stats no_failure sample_df
               (sample_selection (Some "T1599"%string) "T1529" 0)
             = Ret (Map fig, cache) /\
             In r' (records (frame fig)) /\
             (at_ r' "T1529" = None \/ at_ r' "Average Score" = None)).
  { eexists _, _, _. split; [vm_compute; reflexivity |].
    cbn [records frame]. split; [right; right; left; reflexivity |].
    left. vm_compute. reflexivity. }
  destruct H as (fig & cache & r' & Hupd & Hin & Hm).
  exists fig, cache, r'. repeat (split; [assumption |]).
  exact (click_missing_number_raises _ _ _ _ _ _ Hupd Hin Hm).
Defined.

Lemma top_quantile_keeps_maxima_witness :
  has_column sample_df "T1529" = true /\ unit_interval (99 # 100) /\
  inject_Z (Z.of_nat (length (dropna (series sample_df "T1529")) - 1))
    * (1 - (99 # 100)) < 1 /\
  exists df_plot,
    filter_stage sample_df "T1529" (99 # 100) = Ret df_plot /\
    forall r, In r (records df_plot) -> at_ r "T1529" <> None.
Proof.
  assert (Hc : has_column sample_df "T1529" = true) by reflexivity.
  assert (Hq : unit_interval (99 # 100)) by (split; discriminate).
  assert (Hn : inject_Z (Z.of_nat
                 (length (dropna (series sample_df "T1529")) - 1))
               * (1 - (99 # 100)) < 1) by (vm_compute; reflexivity).
  repeat (split; [assumption |]).
  destruct (top_quantile_keeps_maxima sample_df "T1529" _ Hc Hq Hn)
    as (df_plot & Hf & Hkept).
  exists df_plot. split; [exact Hf |]. intros r Hr.
  apply Hkept in Hr as (_ & v & Hv & _). congruence.
Defined.

Lemma percent_of_total_range_witness :
  Forall (fun c => exists v, c = Some v /\ 0 <= v) [Some 1; Some 3] /\
  0 < Series_sum [Some 1; Some 3] /\
  Series_sum [Some 1; Some 3] < inject_Z (2 ^ 63) /\
  Forall (fun c => exists p, c = Some p /\ 0 <= p <= 100)
         (percent_of_total [Some 1; Some 3]).
Proof.
  assert (Hnn : Forall (fun c => exists v, c = Some v /\ 0 <= v)
                       [Some 1; Some 3]).
  { repeat constructor; eexists; (split; [reflexivity | discriminate]). }
  assert (Ht : 0 < Series_sum [Some 1; Some 3]) by reflexivity.
  assert (Hb : Series_sum [Some 1; Some 3] < inject_Z (2 ^ 63))
    by reflexivity.
  split; [exact Hnn |]. split; [exact Ht |]. split; [exact Hb |].
  exact (percent_of_total_range _ Hnn Ht Hb).
Defined.

Lemma color_bound_at_most_max_witness :
  dropna [Some 1; None; Some 3] <> [] /\
  exists ub mx,
    color_upper_bound [Some 1; None; Some 3] = Ret (Some ub) /\
    Series_max [Some 1; None; Some 3] = Some mx /\ ub <= mx.
Proof.
  assert (Hne : dropna [Some 1; None; Some 3] <> []) by discriminate.
  split; [exact Hne |].
  destruct (color_bound_at_most_max _ Hne) as (ub & mx & Hu & Hm & Hle & _).
  eauto.
Defined.

Lemma setitem_round_trip_witness :
  length [Some 1; None; Some 3; Some 4] = length (records sample_df) /\
  series (setitem sample_df "rank" [Some 1; None; Some 3; Some 4]) "rank"
  = [Some 1; None; Some 3; Some 4].
Proof.
  assert (Hl : length [Some 1; None; Some 3; Some 4]
               = length (records sample_df)) by reflexivity.
  split; [exact Hl |].
  exact (proj1 (setitem_round_trip sample_df "rank" _ Hl)).
Defined.

Lemma pie_chart_shape_witness :
  let d := sample_row "35010001"
             [ ("T1546", Some 100); ("T1547", Some 1); ("T1550", None);
               ("T1551", Some (-3)); ("T1552", Some 50) ]%string in
  exists names vals,
    pie_chart d = PieChart names vals /\
    length names = length vals /\ List.NoDup names.
Proof.
  intros d.
  assert (H : exists names vals, pie_chart d = PieChart names vals).
  { eexists _, _. vm_compute. reflexivity. }
  destruct H as (names & vals & H). exists names, vals.
  split; [exact H |].
  destruct (pie_chart_shape d names vals H) as (Hl & _ & Hnd & _). auto.
Defined.

Lemma dropdown_selection_loaded_witness :
  let sel := sample_selection (Some "T1599"%string) "T1585" 0 in
  let merged :=
    fixed_columns ++ ["geometry"%string; "T1599"%string; "Notes"%string] in
  from_dropdowns sel /\
  df_data_columns merged = Ret (fixed_columns ++ ["T1599"%string]) /\
  exists t,
    resolve_column sel = Ret ("T1599"%string, t) /\
    In "T1599"%string (fixed_columns ++ ["T1599"%string]).
Proof.
  intros sel merged.
  assert (Hsel : from_dropdowns sel).
  { repeat split; cbn; auto 30. }
  assert (Hload : df_data_columns merged
                  = Ret (fixed_columns ++ ["T1599"%string])) by reflexivity.
  split; [exact Hsel |]. split; [exact Hload |].
  destruct (dropdown_selection_loaded sel merged _ Hsel Hload)
    as (col & t & Hres & _ & Hin & _).
  assert (Hcol : col = "T1599"%string).
  { assert (E : resolve_column sel
                = Ret ("T1599"%string, "Immigration by T1599"%string))
      by reflexivity.
    rewrite E in Hres. by injection Hres. }
  subst col. exists t. split; [exact Hres |].
  apply Hin. cbn. auto 30.
Defined.
